(** * UserEntry: the local mirror of a user document and its pending changes

    A shallow embedding of the [UserEntry] class: the optimistic local
    fields, the tree of deferred ReQL operations kept in [_changes], the
    deep merge that accumulates it, [save], and the two serialisation
    methods.

    JavaScript objects used as mappings are finite maps from property names
    to values ([gmap string value]); maps are extensional, so [=] on them is
    deep equality of the mappings.  Property names are the names of data
    fields: the name [__proto__], which JavaScript routes to the prototype
    of an object instead of a property, is outside the model, and the
    statements that range over arbitrary mappings ask for mappings that are
    [plain], that is, hold no such key.  Numbers are binary64 values whose
    finite values are integers; sums and differences round as binary64
    does. *)

From stdpp Require Import gmap strings list fin_maps.

#[local] Set Warnings "-register-all".
#[local] Open Scope Z_scope.

(** ** Numbers

    A number is a binary64 value: [NaN], an infinity, or a finite value.
    The finite values of the model are the integers (the coin counters and
    timestamps of the [UserData] typedef); [Fin z] stands for the binary64
    value of the integer [z], which every integer up to 2^53 in magnitude
    has.  The two zeros are not told apart. *)

Inductive num : Type :=
| NaN
| Fin (z : Z)
| PosInf
| NegInf.

#[global] Instance num_eq_dec : EqDecision num.
Proof. solve_decision. Defined.

(** The integers that binary64 arithmetic treats exactly: 2^53 in
    magnitude at most. *)
Definition two53 : Z := 9007199254740992.

Definition safe (z : Z) : Prop := - two53 ≤ z ≤ two53.

(** The magnitude of the binary64 value nearest to an integer of magnitude
    [a] above 2^53: the 53-bit significand [q] at exponent [e], rounded up
    when the rest is above half a unit, and to the even significand on a
    tie. *)
Definition nearest_magnitude (a : Z) : Z :=
  let e := Z.log2 a - 52 in
  let q := a / 2 ^ e in
  let r := a mod 2 ^ e in
  let half := 2 ^ (e - 1) in
  let q' :=
    if r <? half then q
    else if half <? r then q + 1
    else if Z.even q then q else q + 1 in
  q' * 2 ^ e.

(** The binary64 value nearest to the integer [z], an infinity from 2^1024
    on: what an addition or a subtraction whose exact result is [z]
    returns. *)
Definition round64 (z : Z) : num :=
  if Z.abs z <=? two53 then Fin z
  else
    let m := nearest_magnitude (Z.abs z) in
    if 2 ^ 1024 <=? m then (if z <? 0 then NegInf else PosInf)
    else Fin (Z.sgn z * m).

(** [a + b] on numbers. *)
Definition num_add (a b : num) : num :=
  match a, b with
  | NaN, _ | _, NaN => NaN
  | Fin x, Fin y => round64 (x + y)
  | PosInf, NegInf | NegInf, PosInf => NaN
  | PosInf, _ | _, PosInf => PosInf
  | NegInf, _ | _, NegInf => NegInf
  end.

(** [a - b] on numbers. *)
Definition num_sub (a b : num) : num :=
  match a, b with
  | NaN, _ | _, NaN => NaN
  | Fin x, Fin y => round64 (x - y)
  | PosInf, PosInf | NegInf, NegInf => NaN
  | PosInf, _ | _, NegInf => PosInf
  | NegInf, _ | _, PosInf => NegInf
  end.

(** [Math.max(a, b)]: [NaN] as soon as one argument is [NaN]. *)
Definition Math_max (a b : num) : num :=
  match a, b with
  | NaN, _ | _, NaN => NaN
  | PosInf, _ | _, PosInf => PosInf
  | NegInf, x | x, NegInf => x
  | Fin x, Fin y => Fin (Z.max x y)
  end.

(** [n < 0]. *)
Definition below_zero (n : num) : bool :=
  match n with
  | Fin z => z <? 0
  | NegInf => true
  | NaN | PosInf => false
  end.

(** ** ReQL terms

    [this._client.r] builds query terms; a term is the syntax tree of the
    calls that made it.  Terms are callable ([r.row('streak')('streak')]),
    so [typeof] of a term is ['function']. *)

Inductive reql : Type :=
| RRow (field : string)                 (* r.row(field) *)
| RBracket (t : reql) (field : string)  (* t(field) *)
| RAdd (t : reql) (n : num)             (* t.add(n) *)
| RSub (t : reql) (n : num)             (* t.sub(n) *)
| RDatum (n : num)                      (* a number inside r.expr *)
| RExpr (elems : list reql)             (* r.expr([e1, ..., en]) *)
| RMax (t : reql).                      (* t.max() *)

(** ** Values *)

Inductive value : Type :=
| VUndefined
| VNull
| VBool (b : bool)
| VNum (n : num)
| VStr (s : string)
| VTerm (t : reql)
| VObj (o : gmap string value).

Inductive jstype : Type :=
| TUndefined | TObject | TBoolean | TNumber | TString | TFunction.

#[global] Instance jstype_eq_dec : EqDecision jstype.
Proof. solve_decision. Defined.

(** [typeof v].  Note [typeof null === 'object']. *)
Definition typeof (v : value) : jstype :=
  match v with
  | VUndefined => TUndefined
  | VNull => TObject
  | VBool _ => TBoolean
  | VNum _ => TNumber
  | VStr _ => TString
  | VTerm _ => TFunction
  | VObj _ => TObject
  end.

(** ToBoolean: [!v] is [negb (truthy v)]. *)
Definition truthy (v : value) : bool :=
  match v with
  | VUndefined | VNull => false
  | VBool b => b
  | VNum NaN => false
  | VNum (Fin z) => negb (z =? 0)
  | VNum PosInf | VNum NegInf => true
  | VStr s => negb (String.eqb s "")
  | VTerm _ | VObj _ => true
  end.

(** [o[key]]: a missing property reads as [undefined]. *)
Definition get (o : gmap string value) (key : string) : value :=
  default VUndefined (o !! key).

(** ** Exceptions and results *)

Inductive exn : Type :=
| MissingAmount              (* new Error('Missing mandatory amount parameter') *)
| TypeError                  (* raised by the runtime *)
| RangeError                 (* call stack exhausted *)
| GatewayError (e : string). (* rejection of the query by the database client *)

Inductive outcome (A : Type) : Type :=
| Ok (a : A)
| Thrown (e : exn).
Arguments Ok {A} a.
Arguments Thrown {A} e.

#[global] Instance outcome_ret : MRet outcome := fun A a => Ok a.
#[global] Instance outcome_bind : MBind outcome := fun A B f m =>
  match m with
  | Ok a => f a
  | Thrown e => Thrown e
  end.
#[global] Instance outcome_fmap : FMap outcome := fun A B f m =>
  match m with
  | Ok a => Ok (f a)
  | Thrown e => Thrown e
  end.

(** ** _deepMerge *)

(** [{ ...v }] for a value with [typeof v === 'object']: spreading [null]
    copies nothing. *)
Definition spread (v : value) : gmap string value :=
  match v with
  | VObj o => o
  | _ => ∅
  end.

(** First loop: [typeof target[key] === 'object' ? { ...target[key] } : target[key]]. *)
Definition copyEntry (v : value) : value :=
  if decide (typeof v = TObject) then VObj (spread v) else v.

(** Second loop, the value stored at [destination[key]].  [rec] is the
    recursive call [this._deepMerge(target[key], source[key])]; on that
    path [target[key]] is truthy with [typeof] ['object'], which only a
    mapping is. *)
Definition entryValue
    (rec : gmap string value → value → outcome (gmap string value))
    (tv sv : value) : outcome value :=
  if negb (truthy tv) || negb (bool_decide (typeof tv = TObject)) then Ok sv
  else if negb (bool_decide (typeof sv = TObject)) then Ok sv
  else match tv with
       | VObj t => VObj <$> rec t sv
       | _ => Ok sv
       end.

(** One iteration of the second loop; an exception ends the loop. *)
Definition assignEntry
    (rec : gmap string value → value → outcome (gmap string value))
    (target : gmap string value) (key : string) (sv : value)
    (acc : outcome (gmap string value)) : outcome (gmap string value) :=
  destination ← acc;
  v ← entryValue rec (get target key) sv;
  Ok (<[key := v]> destination).

(** [_deepMerge(target, source)] where [source] is the value found at a key
    whose [typeof] is ['object']: a mapping, or [null], on which
    [Object.keys] throws a TypeError. *)
Fixpoint deepMergeInto (target : gmap string value) (source : value)
    {struct source} : outcome (gmap string value) :=
  match source with
  | VObj src =>
      map_fold (assignEntry deepMergeInto target)
               (Ok (copyEntry <$> target)) src
  | _ => Thrown TypeError
  end.

Definition _deepMerge (target source : gmap string value)
    : outcome (gmap string value) :=
  deepMergeInto target (VObj source).

(** [o.a.b...]: the value found by following a path of property names. *)
Fixpoint lookup_path (path : list string) (v : value) : option value :=
  match path with
  | [] => Some v
  | key :: rest =>
      match v with
      | VObj o => o !! key ≫= lookup_path rest
      | _ => None
      end
  end.

(** The size of a value, the measure for induction on nested mappings. *)

Fixpoint vsize (v : value) : nat :=
  match v with
  | VObj o => S (map_fold (λ _ v' n, (vsize v' + n)%nat) 0%nat o)
  | _ => 1%nat
  end.

(** Values that hold no [null], at any depth. *)

Fixpoint null_free (v : value) : bool :=
  match v with
  | VNull => false
  | VObj o => map_fold (λ _ v' b, null_free v' && b) true o
  | _ => true
  end.

(** Values that hold no [__proto__] key, at any depth: the mappings on
    which reading and assigning a property by name is a plain lookup and a
    plain insertion. *)
Fixpoint plain (v : value) : bool :=
  match v with
  | VObj o =>
      map_fold (λ key v' b, negb (String.eqb key "__proto__") && plain v' && b)
               true o
  | _ => true
  end.

(** What the second loop of [_deepMerge] has established once it has run
    over the keys of [src], starting from the copy [d0] of the target. *)
Definition loop_post
    (rec : gmap string value → value → outcome (gmap string value))
    (target d0 : gmap string value)
    (r : outcome (gmap string value)) (src : gmap string value) : Prop :=
  match r with
  | Ok d =>
      ∀ key,
        match src !! key with
        | Some sv =>
            ∃ v, entryValue rec (get target key) sv = Ok v ∧ d !! key = Some v
        | None => d !! key = d0 !! key
        end
  | Thrown e =>
      ∃ key sv, src !! key = Some sv
                ∧ entryValue rec (get target key) sv = Thrown e
  end.

(** ** The user document and the entry *)

Module Streak.
(** [UserData.streak]. *)
Record t : Type := mk {
  time : num;    (* when the user last ran the daily command *)
  streak : num;  (* the total streak *)
}.
End Streak.

(** The [UserData] typedef. *)
Record UserData : Type := mkUserData {
  id : string;
  pls : num;
  lastCmd : num;
  lastRan : string;
  spam : num;
  pocket : num;
  bank : num;
  won : num;
  lost : num;
  shared : num;
  streak : Streak.t;
  upvoted : bool;
  dblUpvoted : bool;
}.

(** The query [save] sends:
    [r.table(t).insert(r.table(t).get(key).default(dflt).merge(changes), opts)]. *)
Record insertQuery : Type := mkInsert {
  ins_table : string;
  get_table : string;
  get_key : string;
  default_doc : UserData;
  merge_changes : gmap string value;
  opt_conflict : string;
  opt_returnChanges : string;
}.

(** What [run()] resolves with: [c.changes[i].new_val]. *)
Record change : Type := mkChange { new_val : UserData }.
Record response : Type := mkResponse { changes : list change }.

(** The [Memer] instance, as far as the entry uses it:
    [db.getDefaultUser] and the query runner behind [r]. *)
Record Memer : Type := mkMemer {
  getDefaultUser : string → UserData;
  run : insertQuery → outcome response;
}.

(** An instance of [UserEntry]: the properties copied from the document by
    [Object.assign], then [_client] and [_changes]. *)
Record UserEntry : Type := mkUserEntry {
  data : UserData;
  _client : Memer;
  _changes : gmap string value;
}.

(** [constructor (userData, Memer)]. *)
Definition new_UserEntry (userData : UserData) (client : Memer) : UserEntry :=
  {| data := userData; _client := client; _changes := ∅ |}.

(** Assignments to the properties of [this]. *)
Definition with_data (f : UserData → UserData) (this : UserEntry) : UserEntry :=
  {| data := f (data this); _client := _client this; _changes := _changes this |}.

Definition set_changes (c : gmap string value) (this : UserEntry) : UserEntry :=
  {| data := data this; _client := _client this; _changes := c |}.

Definition set_pls (v : num) (d : UserData) : UserData :=
  mkUserData (id d) v (lastCmd d) (lastRan d) (spam d) (pocket d) (bank d)
             (won d) (lost d) (shared d) (streak d) (upvoted d) (dblUpvoted d).
Definition set_lastCmd (v : num) (d : UserData) : UserData :=
  mkUserData (id d) (pls d) v (lastRan d) (spam d) (pocket d) (bank d)
             (won d) (lost d) (shared d) (streak d) (upvoted d) (dblUpvoted d).
Definition set_lastRan (v : string) (d : UserData) : UserData :=
  mkUserData (id d) (pls d) (lastCmd d) v (spam d) (pocket d) (bank d)
             (won d) (lost d) (shared d) (streak d) (upvoted d) (dblUpvoted d).
Definition set_spam (v : num) (d : UserData) : UserData :=
  mkUserData (id d) (pls d) (lastCmd d) (lastRan d) v (pocket d) (bank d)
             (won d) (lost d) (shared d) (streak d) (upvoted d) (dblUpvoted d).
Definition set_pocket (v : num) (d : UserData) : UserData :=
  mkUserData (id d) (pls d) (lastCmd d) (lastRan d) (spam d) v (bank d)
             (won d) (lost d) (shared d) (streak d) (upvoted d) (dblUpvoted d).
Definition set_bank (v : num) (d : UserData) : UserData :=
  mkUserData (id d) (pls d) (lastCmd d) (lastRan d) (spam d) (pocket d) v
             (won d) (lost d) (shared d) (streak d) (upvoted d) (dblUpvoted d).
Definition set_won (v : num) (d : UserData) : UserData :=
  mkUserData (id d) (pls d) (lastCmd d) (lastRan d) (spam d) (pocket d) (bank d)
             v (lost d) (shared d) (streak d) (upvoted d) (dblUpvoted d).
Definition set_lost (v : num) (d : UserData) : UserData :=
  mkUserData (id d) (pls d) (lastCmd d) (lastRan d) (spam d) (pocket d) (bank d)
             (won d) v (shared d) (streak d) (upvoted d) (dblUpvoted d).
Definition set_streak (v : Streak.t) (d : UserData) : UserData :=
  mkUserData (id d) (pls d) (lastCmd d) (lastRan d) (spam d) (pocket d) (bank d)
             (won d) (lost d) (shared d) v (upvoted d) (dblUpvoted d).

(** [this.streak] *)
Definition this_streak (this : UserEntry) : Streak.t := streak (data this).

(** ** Methods: state of [this], and exceptions

    A method runs on the receiver and leaves it in a new state, whether it
    returns or throws. *)

Definition method (A : Type) : Type := UserEntry → outcome A * UserEntry.

#[global] Instance method_ret : MRet method := fun A a this => (Ok a, this).
#[global] Instance method_bind : MBind method := fun A B f m this =>
  match m this with
  | (Ok a, this') => f a this'
  | (Thrown e, this') => (Thrown e, this')
  end.

Definition throw {A} (e : exn) : method A := fun this => (Thrown e, this).
Definition self : method UserEntry := fun this => (Ok this, this).
Definition assign (f : UserEntry → UserEntry) : method unit :=
  fun this => (Ok tt, f this).
Definition lift {A} (r : outcome A) : method A := fun this => (r, this).

(** [update (object)]. *)
Definition update (object : gmap string value) : method UserEntry :=
  this ← self;
  merged ← lift (_deepMerge (_changes this) object);
  assign (set_changes merged);;
  self.

(** The operations the methods defer to the database. *)
Definition row_add (field : string) (amount : num) : value :=
  VTerm (RAdd (RRow field) amount).

(** [r.expr([r.row(field).sub(amount), 0]).max()] *)
Definition row_sub_clamped (field : string) (amount : num) : value :=
  VTerm (RMax (RExpr [RSub (RRow field) amount; RDatum (Fin 0)])).

(** [r.row('streak')('streak').add(1)] *)
Definition streak_add_1 : value :=
  VTerm (RAdd (RBracket (RRow "streak") "streak") (Fin 1)).

(** What a property of an instance holds: a value, or the [Memer] instance. *)
Inductive member : Type :=
| MValue (v : value)
| MClient (c : Memer).

Definition typeof_member (m : member) : jstype :=
  match m with
  | MValue v => typeof v
  | MClient _ => TObject
  end.

(** [this.streak] as a value. *)
Definition streak_value (s : Streak.t) : value :=
  VObj {[ "time" := VNum (Streak.time s); "streak" := VNum (Streak.streak s) ]}.

(** The operations of the JavaScript runtime that the model keeps
    abstract: the conversion of a string to a number ([NaN] for a string
    that denotes none); the conversion of an object or a function to a
    number, which goes through its [valueOf] and [toString] and throws a
    TypeError ([None]) when neither yields a primitive; and the quoting of
    a string as a JSON text. *)
Class Runtime : Type := {
  StringToNumber : string → num;
  ObjectToNumber : value → option num;
  QuoteJSONString : string → string;
}.

(** [Number(v)].  It is the identity on numbers, so
    [typeof amount !== 'number' ? Number(amount) : amount] is
    [Number(amount)]. *)
Definition Number `{Runtime} (v : value) : outcome num :=
  match v with
  | VUndefined => Ok NaN
  | VNull => Ok (Fin 0)
  | VBool b => Ok (Fin (if b then 1 else 0))
  | VNum n => Ok n
  | VStr s => Ok (StringToNumber s)
  | VTerm _ | VObj _ =>
      match ObjectToNumber v with
      | Some n => Ok n
      | None => Thrown TypeError
      end
  end.

(** [Number(v)] where it returns. *)
Definition coerced `{Runtime} (v : value) : num :=
  match Number v with
  | Ok n => n
  | Thrown _ => NaN
  end.

(** A parameter with a default: the default is taken when the argument is
    [undefined]. *)
Definition or_default (v dflt : value) : value :=
  match v with
  | VUndefined => dflt
  | _ => v
  end.

Definition addPocket_changes (amount : num) : gmap string value :=
  {[ "pocket" := row_add "pocket" amount; "won" := row_add "won" amount ]}.

(** [addPocket (amount)] *)
Definition addPocket `{Runtime} (amount : value) : method UserEntry :=
  if negb (truthy amount) then throw MissingAmount
  else
    amount ← lift (Number amount);
    this ← self;
    assign (with_data (set_pocket (num_add (pocket (data this)) amount)));;
    this ← self;
    assign (with_data (set_won (num_add (won (data this)) amount)));;
    update (addPocket_changes amount);;
    self.

Definition removePocket_changes (amount : num) : gmap string value :=
  {[ "pocket" := row_sub_clamped "pocket" amount;
     "lost" := row_add "lost" amount ]}.

(** [removePocket (amount)] *)
Definition removePocket `{Runtime} (amount : value) : method UserEntry :=
  if negb (truthy amount) then throw MissingAmount
  else
    amount ← lift (Number amount);
    this ← self;
    assign (with_data
              (set_pocket (Math_max (num_sub (pocket (data this)) amount) (Fin 0))));;
    this ← self;
    assign (with_data (set_lost (num_add (lost (data this)) amount)));;
    update (removePocket_changes amount);;
    self.

Definition addBank_changes (amount : num) (transfer : value)
    : gmap string value :=
  let changes := {[ "bank" := row_add "bank" amount ]} in
  if truthy transfer
  then <[ "pocket" := row_sub_clamped "pocket" amount ]> changes
  else changes.

(** [addBank (amount, transfer = true)] *)
Definition addBank `{Runtime} (amount transfer : value) : method UserEntry :=
  let transfer := or_default transfer (VBool true) in
  if negb (truthy amount) then throw MissingAmount
  else
    amount ← lift (Number amount);
    this ← self;
    assign (with_data (set_bank (num_add (bank (data this)) amount)));;
    (if truthy transfer
     then
       this ← self;
       assign (with_data
                 (set_pocket (Math_max (num_sub (pocket (data this)) amount) (Fin 0))))
     else mret tt);;
    update (addBank_changes amount transfer);;
    self.

Definition removeBank_changes (amount : num) (transfer : value)
    : gmap string value :=
  let changes := {[ "bank" := row_sub_clamped "bank" amount ]} in
  if truthy transfer
  then <[ "pocket" := row_add "pocket" amount ]> changes
  else changes.

(** [removeBank (amount, transfer = true)] *)
Definition removeBank `{Runtime} (amount transfer : value) : method UserEntry :=
  let transfer := or_default transfer (VBool true) in
  if negb (truthy amount) then throw MissingAmount
  else
    amount ← lift (Number amount);
    this ← self;
    assign (with_data
              (set_bank (Math_max (num_sub (bank (data this)) amount) (Fin 0))));;
    (if truthy transfer
     then
       this ← self;
       assign (with_data (set_pocket (num_add (pocket (data this)) amount)))
     else mret tt);;
    update (removeBank_changes amount transfer);;
    self.

Definition updateStreak_changes (timestamp : num) : gmap string value :=
  {[ "streak" := VObj {[ "time" := VNum timestamp; "streak" := streak_add_1 ]} ]}.

(** [updateStreak (timestamp = Date.now(), streak = this.streak.streak + 1)];
    [now] is what [Date.now()] reads at the call, [None] an omitted
    argument. *)
Definition updateStreak (now : num) (timestamp streak : option num)
    : method UserEntry :=
  this ← self;
  let timestamp := default now timestamp in
  let streak :=
    default (num_add (Streak.streak (this_streak this)) (Fin 1)) streak in
  assign (with_data (set_streak (Streak.mk timestamp streak)));;
  update (updateStreak_changes timestamp);;
  self.

Definition resetStreak_changes : gmap string value :=
  {[ "streak" := VObj {[ "streak" := VNum (Fin 0) ]} ]}.

(** [resetStreak ()] *)
Definition resetStreak : method UserEntry :=
  this ← self;
  assign (with_data
            (set_streak (Streak.mk (Streak.time (this_streak this)) (Fin 0))));;
  update resetStreak_changes;;
  self.

Definition addPls_changes (amount : num) : gmap string value :=
  {[ "pls" := row_add "pls" amount ]}.

(** [addPls (amount = 1)] *)
Definition addPls (amount : option num) : method UserEntry :=
  let amount := default (Fin 1) amount in
  this ← self;
  assign (with_data (set_pls (num_add (pls (data this)) amount)));;
  update (addPls_changes amount);;
  self.

Definition addSpam_changes (amount : num) : gmap string value :=
  {[ "spam" := row_add "spam" amount ]}.

(** [addSpam (amount = 1)] *)
Definition addSpam (amount : option num) : method UserEntry :=
  let amount := default (Fin 1) amount in
  this ← self;
  assign (with_data (set_spam (num_add (spam (data this)) amount)));;
  update (addSpam_changes amount);;
  self.

Definition setLastCmd_changes (cmd : string) (timestamp : num)
    : gmap string value :=
  {[ "lastCmd" := VNum timestamp; "lastRan" := VStr cmd ]}.

(** [setLastCmd (cmd = 'nothing', timestamp = Date.now())] *)
Definition setLastCmd (now : num) (cmd : option string)
    (timestamp : option num) : method UserEntry :=
  let cmd := default "nothing" cmd in
  let timestamp := default now timestamp in
  assign (with_data (set_lastRan cmd));;
  assign (with_data (set_lastCmd timestamp));;
  update (setLastCmd_changes cmd timestamp);;
  self.

(** The query of [save]. *)
Definition save_query (this : UserEntry) : insertQuery :=
  {| ins_table := "users";
     get_table := "users";
     get_key := id (data this);
     default_doc := getDefaultUser (_client this) (id (data this));
     merge_changes := _changes this;
     opt_conflict := "update";
     opt_returnChanges := "always" |}.

(** [save ()]: the outcome of the promise it returns.  [c.changes[0]] of
    an empty array is [undefined], and reading [new_val] from it throws. *)
Definition save : method UserEntry :=
  this ← self;
  c ← lift (run (_client this) (save_query this));
  match changes c with
  | first :: _ => mret (new_UserEntry (new_val first) (_client this))
  | [] => throw TypeError
  end.

(** The own properties of an instance, as [Object.getOwnPropertyNames]
    lists them with the value each holds; the methods live on the
    prototype and are not among them. *)
Definition ownProperties (this : UserEntry) : list (string * member) :=
  let d := data this in
  [ ("id", MValue (VStr (id d)));
    ("pls", MValue (VNum (pls d)));
    ("lastCmd", MValue (VNum (lastCmd d)));
    ("lastRan", MValue (VStr (lastRan d)));
    ("spam", MValue (VNum (spam d)));
    ("pocket", MValue (VNum (pocket d)));
    ("bank", MValue (VNum (bank d)));
    ("won", MValue (VNum (won d)));
    ("lost", MValue (VNum (lost d)));
    ("shared", MValue (VNum (shared d)));
    ("streak", MValue (streak_value (streak d)));
    ("upvoted", MValue (VBool (upvoted d)));
    ("dblUpvoted", MValue (VBool (dblUpvoted d)));
    ("_client", MClient (_client this));
    ("_changes", MValue (VObj (_changes this))) ].

(** The body of the loop of [toPlainObject]. *)
Definition plain_step (obj : gmap string member) (p : string * member)
    : gmap string member :=
  let '(key, m) := p in
  if negb (bool_decide (typeof_member m = TFunction))
     && negb (bool_decide (key ∈ ["_client"; "_changes"]))
  then <[key := m]> obj
  else obj.

(** [toPlainObject ()] *)
Definition toPlainObject (this : UserEntry) : gmap string member :=
  foldl plain_step ∅ (ownProperties this).

(** [JSON.stringify(v)] for an instance [v] of the class.  Before it
    serialises anything, [JSON.stringify] reads [v.toJSON]; the instance
    inherits the method below, so it is called on [v] and its result, a
    string, is what gets serialised. *)
Definition JSON_stringify `{Runtime} (toJSON : UserEntry → outcome string)
    (v : UserEntry) : outcome string :=
  s ← toJSON v;
  Ok (QuoteJSONString s).

(** [toJSON ()], on a call stack with room for [stack] more frames. *)
Fixpoint toJSON `{Runtime} (stack : nat) (this : UserEntry) : outcome string :=
  match stack with
  | O => Thrown RangeError
  | S stack' => JSON_stringify (toJSON stack') this
  end.

(** ** The mutating calls, as data

    One constructor per mutating method with its arguments; [call] runs the
    method and [deferred] is the object it hands to [update]. *)

Inductive mutation : Type :=
| AddPocket (amount : value)
| RemovePocket (amount : value)
| AddBank (amount transfer : value)
| RemoveBank (amount transfer : value)
| UpdateStreak (now : num) (timestamp streak : option num)
| ResetStreak
| AddPls (amount : option num)
| AddSpam (amount : option num)
| SetLastCmd (now : num) (cmd : option string) (timestamp : option num).

Definition call `{Runtime} (m : mutation) : method UserEntry :=
  match m with
  | AddPocket amount => addPocket amount
  | RemovePocket amount => removePocket amount
  | AddBank amount transfer => addBank amount transfer
  | RemoveBank amount transfer => removeBank amount transfer
  | UpdateStreak now timestamp streak => updateStreak now timestamp streak
  | ResetStreak => resetStreak
  | AddPls amount => addPls amount
  | AddSpam amount => addSpam amount
  | SetLastCmd now cmd timestamp => setLastCmd now cmd timestamp
  end.

Definition deferred `{Runtime} (m : mutation) : gmap string value :=
  match m with
  | AddPocket amount => addPocket_changes (coerced amount)
  | RemovePocket amount => removePocket_changes (coerced amount)
  | AddBank amount transfer =>
      addBank_changes (coerced amount) (or_default transfer (VBool true))
  | RemoveBank amount transfer =>
      removeBank_changes (coerced amount) (or_default transfer (VBool true))
  | UpdateStreak now timestamp _ => updateStreak_changes (default now timestamp)
  | ResetStreak => resetStreak_changes
  | AddPls amount => addPls_changes (default (Fin 1) amount)
  | AddSpam amount => addSpam_changes (default (Fin 1) amount)
  | SetLastCmd now cmd timestamp =>
      setLastCmd_changes (default "nothing" cmd) (default now timestamp)
  end.

(** ** What the currency methods leave behind

    The receiver after a currency method has returned, [n] being
    [Number(amount)]: the assigned fields, and [_changes] with the deferred
    operations merged in. *)

Definition addPocket_result (n : num) (this : UserEntry) : UserEntry :=
  set_changes
    (addPocket_changes n ∪ (copyEntry <$> _changes this))
    (with_data (λ d, set_won (num_add (won d) n)
                       (set_pocket (num_add (pocket d) n) d))
               this).

Definition removePocket_result (n : num) (this : UserEntry) : UserEntry :=
  set_changes
    (removePocket_changes n ∪ (copyEntry <$> _changes this))
    (with_data
       (λ d, set_lost (num_add (lost d) n)
               (set_pocket (Math_max (num_sub (pocket d) n) (Fin 0)) d))
       this).

Definition addBank_result (n : num) (transfer : value) (this : UserEntry)
    : UserEntry :=
  let tr := or_default transfer (VBool true) in
  set_changes
    (addBank_changes n tr ∪ (copyEntry <$> _changes this))
    (with_data
       (λ d, let d' := set_bank (num_add (bank d) n) d in
             if truthy tr
             then set_pocket (Math_max (num_sub (pocket d') n) (Fin 0)) d'
             else d')
       this).

Definition removeBank_result (n : num) (transfer : value) (this : UserEntry)
    : UserEntry :=
  let tr := or_default transfer (VBool true) in
  set_changes
    (removeBank_changes n tr ∪ (copyEntry <$> _changes this))
    (with_data
       (λ d, let d' := set_bank (Math_max (num_sub (bank d) n) (Fin 0)) d in
             if truthy tr
             then set_pocket (num_add (pocket d') n) d'
             else d')
       this).

(** ** Predicates used in the statements *)


(** A method that validates its [amount]: it throws the missing-amount
    error exactly on a falsy amount, and whenever it throws it leaves the
    receiver untouched. *)
Definition fails_fast (m : value → method UserEntry) : Prop :=
  ∀ (amount : value) (this : UserEntry),
    (fst (m amount this) = Thrown MissingAmount ↔ truthy amount = false)
    ∧ (∀ e, fst (m amount this) = Thrown e → snd (m amount this) = this).

(** No [null] among the values of the mapping itself. *)
Definition no_null_entry (m : gmap string value) : Prop :=
  ∀ key, m !! key ≠ Some VNull.

(** The fields no method assigns. *)
Definition same_identity (this this' : UserEntry) : Prop :=
  id (data this') = id (data this)
  ∧ shared (data this') = shared (data this)
  ∧ upvoted (data this') = upvoted (data this)
  ∧ dblUpvoted (data this') = dblUpvoted (data this)
  ∧ _client this' = _client this.

(** The user document as a mapping. *)
Definition document (d : UserData) : gmap string value :=
  {[ "id" := VStr (id d);
     "pls" := VNum (pls d);
     "lastCmd" := VNum (lastCmd d);
     "lastRan" := VStr (lastRan d);
     "spam" := VNum (spam d);
     "pocket" := VNum (pocket d);
     "bank" := VNum (bank d);
     "won" := VNum (won d);
     "lost" := VNum (lost d);
     "shared" := VNum (shared d);
     "streak" := streak_value (streak d);
     "upvoted" := VBool (upvoted d);
     "dblUpvoted" := VBool (dblUpvoted d) ]}.

(** ** Sample data *)

(** The skeleton of a user that does not exist yet. *)
Definition blank_user (user : string) : UserData :=
  {| id := user; pls := Fin 0; lastCmd := Fin 0; lastRan := "nothing";
     spam := Fin 0; pocket := Fin 0; bank := Fin 0; won := Fin 0;
     lost := Fin 0; shared := Fin 0;
     streak := Streak.mk (Fin 0) (Fin 0);
     upvoted := false; dblUpvoted := false |}.

(** A client whose database answers every insert with the document [doc]. *)
Definition answering (doc : UserData) : Memer :=
  {| getDefaultUser := blank_user;
     run := λ _, Ok (mkResponse [mkChange doc]) |}.

(** A client whose database rejects every query. *)
Definition unreachable : Memer :=
  {| getDefaultUser := blank_user;
     run := λ _, Thrown (GatewayError "connection refused") |}.

(** An entry for user U1 with the given pocket and bank. *)
Definition entry_with (client : Memer) (p b : Z) : UserEntry :=
  new_UserEntry (set_pocket (Fin p) (set_bank (Fin b) (blank_user "U1"))) client.

(** A runtime for calls with numeric arguments: every string and every
    object converts to [NaN], and a string is quoted as itself. *)
Definition plain_runtime : Runtime :=
  {| StringToNumber := λ _, NaN;
     ObjectToNumber := λ _, Some NaN;
     QuoteJSONString := λ s, s |}.

(** * Properties *)

(** ** Numbers *)

Lemma round64_safe z : safe z → round64 z = Fin z.
Proof.
  intros [Hlo Hhi]. unfold round64.
  destruct (Z.leb_spec (Z.abs z) two53) as [_|Hgt]; [done|]. lia.
Qed.

Lemma num_add_safe x y : safe (x + y) → num_add (Fin x) (Fin y) = Fin (x + y).
Proof. apply round64_safe. Qed.

Lemma num_sub_safe x y : safe (x - y) → num_sub (Fin x) (Fin y) = Fin (x - y).
Proof. apply round64_safe. Qed.

Lemma nearest_magnitude_nonneg a : 0 ≤ a → 0 ≤ nearest_magnitude a.
Proof.
  intros Ha. unfold nearest_magnitude.
  assert (Hq : 0 ≤ a / 2 ^ (Z.log2 a - 52)).
  { apply Z_div_nonneg_nonneg; [done|]. by apply Z.pow_nonneg. }
  apply Z.mul_nonneg_nonneg; [|by apply Z.pow_nonneg].
  repeat case_match; lia.
Qed.

(** Rounding keeps the sign. *)
Lemma round64_nonneg z : 0 ≤ z → below_zero (round64 z) = false.
Proof.
  intros Hz. unfold round64.
  pose proof (nearest_magnitude_nonneg (Z.abs z) ltac:(lia)) as Hm.
  destruct (Z.leb_spec (Z.abs z) two53) as [_|Hgt].
  - by apply Z.ltb_ge.
  - cbv zeta. destruct (2 ^ 1024 <=? nearest_magnitude (Z.abs z)).
    + destruct (Z.ltb_spec z 0) as [?|_]; [lia|done].
    + apply Z.ltb_ge. apply Z.mul_nonneg_nonneg; lia.
Qed.


Lemma Math_max_zero_not_below n : below_zero (Math_max n (Fin 0)) = false.
Proof.
  destruct n as [|z| |]; cbn [Math_max below_zero]; try done.
  apply Z.ltb_ge. lia.
Qed.

(** ** Plain mappings *)

Lemma plain_lookup (o : gmap string value) key v :
  plain (VObj o) = true →
  o !! key = Some v →
  key ≠ "__proto__" ∧ plain v = true.
Proof.
  simpl. revert key v.
  apply (map_fold_weak_ind
           (λ b (m : gmap string value),
              ∀ key v, b = true → m !! key = Some v →
                       key ≠ "__proto__" ∧ plain v = true)).
  - intros key v _ Hl. by rewrite lookup_empty in Hl.
  - intros i x m r Hi IH key v Hb Hl.
    apply andb_true_iff in Hb as [Hb Hr].
    apply andb_true_iff in Hb as [Hk Hx].
    destruct (decide (i = key)) as [->|Hne].
    + rewrite lookup_insert_eq in Hl. injection Hl as <-. split; [|done].
      intros ->. by rewrite String.eqb_refl in Hk.
    + rewrite lookup_insert_ne in Hl by done. eauto.
Qed.

Lemma plain_no_proto (o : gmap string value) :
  plain (VObj o) = true → o !! "__proto__" = None.
Proof.
  intros Hp. destruct (o !! "__proto__") as [v|] eqn:Hl; [|done].
  by destruct (plain_lookup o "__proto__" v Hp Hl).
Qed.

(** ** Induction on nested mappings *)

Lemma vsize_lookup (o : gmap string value) key v :
  o !! key = Some v → (vsize v < vsize (VObj o))%nat.
Proof.
  simpl. intros Hl. apply Nat.lt_succ_r. revert key v Hl.
  apply (map_fold_weak_ind
           (λ n (m : gmap string value),
              ∀ key v, m !! key = Some v → (vsize v ≤ n)%nat)).
  - intros key v Hl. by rewrite lookup_empty in Hl.
  - intros i x m r Hi IH key v Hl.
    destruct (decide (i = key)) as [->|Hne].
    + rewrite lookup_insert_eq in Hl. injection Hl as ->. lia.
    + rewrite lookup_insert_ne in Hl by done. specialize (IH _ _ Hl). lia.
Qed.

Lemma value_nested_ind (P : value → Prop) :
  (∀ v, (∀ o, v = VObj o → ∀ key v', o !! key = Some v' → P v') → P v) →
  ∀ v, P v.
Proof.
  intros Hstep v.
  remember (vsize v) as n eqn:Hn. revert v Hn.
  induction n as [n IH] using lt_wf_ind. intros v ->.
  apply Hstep. intros o -> key v' Hl.
  apply (IH (vsize v')); [by eapply vsize_lookup | done].
Qed.

(** *** The two loops, key by key *)

Lemma typeof_object_truthy v :
  truthy v = true → typeof v = TObject → ∃ o, v = VObj o.
Proof. destruct v; try discriminate; eauto. Qed.

Lemma deepMergeInto_obj target src :
  deepMergeInto target (VObj src)
  = map_fold (assignEntry deepMergeInto target) (Ok (copyEntry <$> target)) src.
Proof. reflexivity. Qed.

Lemma second_loop_post rec target d0 src :
  loop_post rec target d0 (map_fold (assignEntry rec target) (Ok d0) src) src.
Proof.
  apply (map_fold_weak_ind (loop_post rec target d0)).
  - intros key. by rewrite lookup_empty.
  - intros i x m r Hi IH. destruct r as [d|e]; simpl in *.
    + unfold assignEntry; simpl.
      destruct (entryValue rec (get target i) x) as [v|e] eqn:Hv; simpl.
      * intros key. destruct (decide (i = key)) as [->|Hne].
        -- rewrite !lookup_insert_eq. eauto.
        -- rewrite !lookup_insert_ne by done. apply IH.
      * exists i, x. by rewrite lookup_insert_eq.
    + destruct IH as (key & sv & Hl & He).
      exists key, sv. split; [|done].
      rewrite lookup_insert_ne; [done|]. intros ->. congruence.
Qed.


Lemma deepMerge_lookup target source d key :
  _deepMerge target source = Ok d →
  match source !! key with
  | Some sv =>
      ∃ v, entryValue deepMergeInto (get target key) sv = Ok v
           ∧ d !! key = Some v
  | None => d !! key = copyEntry <$> target !! key
  end.
Proof.
  unfold _deepMerge. rewrite deepMergeInto_obj. intros Hd.
  pose proof (second_loop_post deepMergeInto target (copyEntry <$> target) source) as H.
  rewrite Hd in H. simpl in H. specialize (H key).
  destruct (source !! key); [done|]. by rewrite H, lookup_fmap.
Qed.

Lemma deepMerge_thrown target source e :
  _deepMerge target source = Thrown e →
  ∃ key sv, source !! key = Some sv
            ∧ entryValue deepMergeInto (get target key) sv = Thrown e.
Proof.
  unfold _deepMerge. rewrite deepMergeInto_obj. intros Hd.
  pose proof (second_loop_post deepMergeInto target (copyEntry <$> target) source) as H.
  by rewrite Hd in H.
Qed.

Lemma entryValue_replace rec tv sv :
  (∀ t, tv ≠ VObj t) → entryValue rec tv sv = Ok sv.
Proof.
  intros Hn. unfold entryValue.
  destruct tv as [| |b|n|s|t|o]; simpl; try done.
  - by rewrite orb_true_r.
  - by rewrite orb_true_r.
  - by rewrite orb_true_r.
  - by destruct (Hn o).
Qed.

Lemma entryValue_leaf rec tv sv :
  typeof sv ≠ TObject → entryValue rec tv sv = Ok sv.
Proof.
  intros Hn. unfold entryValue.
  destruct (negb (truthy tv) || negb (bool_decide (typeof tv = TObject))); [done|].
  by rewrite bool_decide_eq_false_2.
Qed.

Lemma entryValue_recurse t s :
  entryValue deepMergeInto (VObj t) (VObj s) = VObj <$> _deepMerge t s.
Proof. reflexivity. Qed.

(** *** Values without [null] *)

Lemma null_free_lookup (o : gmap string value) key v :
  null_free (VObj o) = true → o !! key = Some v → null_free v = true.
Proof.
  simpl. revert key v.
  apply (map_fold_weak_ind
           (λ b (m : gmap string value),
              ∀ key v, b = true → m !! key = Some v → null_free v = true)).
  - intros key v _ Hl. by rewrite lookup_empty in Hl.
  - intros i x m r Hi IH key v Hb Hl.
    apply andb_true_iff in Hb as [Hx Hr].
    destruct (decide (i = key)) as [->|Hne].
    + rewrite lookup_insert_eq in Hl. by injection Hl as <-.
    + rewrite lookup_insert_ne in Hl by done. eauto.
Qed.

Lemma entryValue_thrown_inv tv sv e :
  entryValue deepMergeInto tv sv = Thrown e →
  ∃ t, tv = VObj t ∧ typeof sv = TObject ∧ deepMergeInto t sv = Thrown e.
Proof.
  unfold entryValue.
  destruct (negb (truthy tv) || negb (bool_decide (typeof tv = TObject)));
    [done|].
  destruct (bool_decide (typeof sv = TObject)) eqn:Hs; simpl; [|done].
  apply bool_decide_eq_true_1 in Hs.
  destruct tv as [| |b|n|s|t|o]; try done.
  destruct (deepMergeInto o sv) eqn:Hr; [done|].
  intros [= <-]. eauto.
Qed.

Lemma deepMerge_total_null_free source :
  null_free (VObj source) = true →
  ∀ target, ∃ d, _deepMerge target source = Ok d.
Proof.
  remember (VObj source) as v eqn:Hv. revert source Hv.
  induction v as [v IH] using value_nested_ind.
  intros source -> Hnf target.
  destruct (_deepMerge target source) as [d|e] eqn:Hd; [eauto|].
  exfalso.
  apply deepMerge_thrown in Hd as (key & sv & Hl & He).
  apply entryValue_thrown_inv in He as (t & _ & Hty & Hrec).
  pose proof (null_free_lookup _ _ _ Hnf Hl) as Hsv.
  destruct sv as [| |b|n|s|r|s]; try done.
  destruct (IH source eq_refl key (VObj s) Hl s eq_refl Hsv t) as [d Hd'].
  unfold _deepMerge in Hd'. congruence.
Qed.

(** *** Merging a mapping with itself *)

Lemma entryValue_self sv :
  (∀ s, sv = VObj s → _deepMerge s s = Ok s) →
  entryValue deepMergeInto sv sv = Ok sv.
Proof.
  intros IH. destruct sv as [| |b|n|s|r|s];
    try (by apply entryValue_replace).
  rewrite entryValue_recurse. by rewrite (IH s eq_refl).
Qed.

Lemma deepMerge_self (X : gmap string value) : _deepMerge X X = Ok X.
Proof.
  remember (VObj X) as v eqn:Hv. revert X Hv.
  induction v as [v IH] using value_nested_ind. intros X ->.
  assert (Hself : ∀ key sv, X !! key = Some sv →
             entryValue deepMergeInto (get X key) sv = Ok sv).
  { intros key sv Hl. unfold get. rewrite Hl. simpl.
    apply entryValue_self. intros s ->. by eapply IH. }
  destruct (_deepMerge X X) as [d|e] eqn:Hd.
  - f_equal. apply map_eq. intros key.
    pose proof (deepMerge_lookup _ _ _ key Hd) as Hk.
    destruct (X !! key) as [sv|] eqn:Hl.
    + destruct Hk as (v & Hv & ->). rewrite (Hself _ _ Hl) in Hv. congruence.
    + by rewrite Hk.
  - apply deepMerge_thrown in Hd as (key & sv & Hl & He).
    rewrite (Hself _ _ Hl) in He. done.
Qed.

(** *** A leaf of the source wins along its whole path *)

Lemma deepMerge_path_overwrite path :
  ∀ target source d v,
    path ≠ [] →
    lookup_path path (VObj source) = Some v →
    typeof v ≠ TObject →
    _deepMerge target source = Ok d →
    lookup_path path (VObj d) = Some v.
Proof.
  induction path as [|key rest IH]; [done|].
  intros target source d v _ Hp Hleaf Hd. simpl in *.
  destruct (source !! key) as [sv|] eqn:Hl; [|done]. simpl in Hp.
  pose proof (deepMerge_lookup _ _ _ key Hd) as Hk. rewrite Hl in Hk.
  destruct Hk as (w & Hw & ->). simpl.
  destruct rest as [|key' rest'].
  - simpl in *. injection Hp as ->.
    rewrite entryValue_leaf in Hw by done. congruence.
  - destruct sv as [| |b|n|s|r|s]; try done.
    destruct (get target key) as [| |b|n|s'|r|t] eqn:Ht;
      try (rewrite entryValue_replace in Hw by done; by injection Hw as <-).
    rewrite entryValue_recurse in Hw.
    destruct (_deepMerge t s) as [m|e] eqn:Hm; [|done].
    injection Hw as <-.
    by eapply (IH t s m v).
Qed.

(** ** Claims about _deepMerge *)



(** ** Running the methods *)

Lemma update_spec object this :
  update object this =
  match _deepMerge (_changes this) object with
  | Ok d => (Ok (set_changes d this), set_changes d this)
  | Thrown e => (Thrown e, this)
  end.
Proof.
  unfold update, mbind, method_bind, self, lift, assign. simpl.
  destruct (_deepMerge (_changes this) object); reflexivity.
Qed.

(** A source whose values are all leaves is merged without recursion: its
    keys replace those of the target. *)
Lemma deepMerge_flat target source :
  (∀ key v, source !! key = Some v → typeof v ≠ TObject) →
  _deepMerge target source = Ok (source ∪ (copyEntry <$> target)).
Proof.
  intros Hflat. destruct (_deepMerge target source) as [d|e] eqn:Hd.
  - f_equal. apply map_eq. intros key.
    pose proof (deepMerge_lookup _ _ _ key Hd) as Hk.
    destruct (source !! key) as [sv|] eqn:Hl.
    + destruct Hk as (v & Hv & ->).
      rewrite entryValue_leaf in Hv by eauto. injection Hv as <-.
      symmetry. by apply lookup_union_Some_l.
    + rewrite Hk. symmetry. rewrite lookup_union_r by done.
      by rewrite lookup_fmap.
  - apply deepMerge_thrown in Hd as (key & sv & Hl & He).
    rewrite entryValue_leaf in He by eauto. done.
Qed.

Ltac run_method :=
  unfold mbind, method_bind, mret, method_ret, self, assign, throw, lift;
  simpl; rewrite ?update_spec; simpl.

Lemma flat_pair k1 v1 k2 v2 :
  typeof v1 ≠ TObject → typeof v2 ≠ TObject →
  ∀ key v, ({[ k1 := v1; k2 := v2 ]} : gmap string value) !! key = Some v →
           typeof v ≠ TObject.
Proof.
  intros H1 H2 key v Hl.
  apply lookup_insert_Some in Hl as [[_ <-]|[_ Hl]]; [done|].
  apply lookup_singleton_Some in Hl as [_ <-]. done.
Qed.

Lemma flat_single k1 v1 :
  typeof v1 ≠ TObject →
  ∀ key v, ({[ k1 := v1 ]} : gmap string value) !! key = Some v →
           typeof v ≠ TObject.
Proof. intros H1 key v Hl. by apply lookup_singleton_Some in Hl as [_ <-]. Qed.

Lemma addPocket_changes_flat amount key v :
  addPocket_changes amount !! key = Some v → typeof v ≠ TObject.
Proof. by apply flat_pair. Qed.

Lemma removePocket_changes_flat amount key v :
  removePocket_changes amount !! key = Some v → typeof v ≠ TObject.
Proof. by apply flat_pair. Qed.

Lemma addBank_changes_flat amount transfer key v :
  addBank_changes amount transfer !! key = Some v → typeof v ≠ TObject.
Proof.
  unfold addBank_changes. destruct (truthy transfer).
  - by apply flat_pair.
  - by apply flat_single.
Qed.

Lemma removeBank_changes_flat amount transfer key v :
  removeBank_changes amount transfer !! key = Some v → typeof v ≠ TObject.
Proof.
  unfold removeBank_changes. destruct (truthy transfer).
  - by apply flat_pair.
  - by apply flat_single.
Qed.

Lemma truthy_nonzero a : a ≠ 0 → truthy (VNum (Fin a)) = true.
Proof. intros Ha. simpl. by apply negb_true_iff, Z.eqb_neq. Qed.

Ltac run_calls :=
  unfold mbind, method_bind, mret, method_ret, self, assign, throw, lift;
  rewrite ?update_spec;
  cbn [_changes with_data set_changes data _client fst snd].

(** The four currency methods on a truthy amount: [Number(amount)] may
    throw, before anything is assigned; otherwise the method returns. *)

Lemma addPocket_run `{Runtime} amount this :
  truthy amount = true →
  addPocket amount this
  = match Number amount with
    | Ok n => (Ok (addPocket_result n this), addPocket_result n this)
    | Thrown e => (Thrown e, this)
    end.
Proof.
  intros Ht. unfold addPocket. rewrite Ht. simpl. run_calls.
  destruct (Number amount) as [n|e]; [|done]. run_calls.
  by rewrite deepMerge_flat by apply addPocket_changes_flat.
Qed.

Lemma removePocket_run `{Runtime} amount this :
  truthy amount = true →
  removePocket amount this
  = match Number amount with
    | Ok n => (Ok (removePocket_result n this), removePocket_result n this)
    | Thrown e => (Thrown e, this)
    end.
Proof.
  intros Ht. unfold removePocket. rewrite Ht. simpl. run_calls.
  destruct (Number amount) as [n|e]; [|done]. run_calls.
  by rewrite deepMerge_flat by apply removePocket_changes_flat.
Qed.

Lemma addBank_run `{Runtime} amount transfer this :
  truthy amount = true →
  addBank amount transfer this
  = match Number amount with
    | Ok n => (Ok (addBank_result n transfer this), addBank_result n transfer this)
    | Thrown e => (Thrown e, this)
    end.
Proof.
  intros Ht. unfold addBank, addBank_result. rewrite Ht. simpl. run_calls.
  destruct (Number amount) as [n|e]; [|done].
  destruct (truthy (or_default transfer (VBool true))) eqn:Htr; run_calls;
    by rewrite deepMerge_flat by apply addBank_changes_flat.
Qed.

Lemma removeBank_run `{Runtime} amount transfer this :
  truthy amount = true →
  removeBank amount transfer this
  = match Number amount with
    | Ok n => (Ok (removeBank_result n transfer this), removeBank_result n transfer this)
    | Thrown e => (Thrown e, this)
    end.
Proof.
  intros Ht. unfold removeBank, removeBank_result. rewrite Ht. simpl. run_calls.
  destruct (Number amount) as [n|e]; [|done].
  destruct (truthy (or_default transfer (VBool true))) eqn:Htr; run_calls;
    by rewrite deepMerge_flat by apply removeBank_changes_flat.
Qed.

(** ** Claims about the currency methods *)

(** C4, as amended.  For every record and every non-zero number [n]:
    [addPocket(n)] returns with pocket and won set to the binary64 sums
    [pocket + n] and [won + n], and [removePocket(n)] returns with pocket
    set to [max(pocket - n, 0)] and lost to [lost + n].  Where the fields
    and [n] are integers and a result is within 2^53 in magnitude, it is
    the exact one: pocket and won grow by exactly [n], the pocket shrinks
    by exactly [min(n, pocket)], lost grows by exactly [n].
    [removePocket] never leaves the pocket below 0; [addPocket] leaves it
    at or above 0 when the pocket was at or above 0 and [n] is positive. *)
Theorem pocket_add_remove `{Runtime} (this : UserEntry) (n : num) :
  truthy (VNum n) = true →
  (∃ this', addPocket (VNum n) this = (Ok this', this')
            ∧ pocket (data this') = num_add (pocket (data this)) n
            ∧ won (data this') = num_add (won (data this)) n
            ∧ (∀ a p w, n = Fin a →
                 pocket (data this) = Fin p → won (data this) = Fin w →
                 (safe (p + a) → pocket (data this') = Fin (p + a))
                 ∧ (safe (w + a) → won (data this') = Fin (w + a))
                 ∧ (0 ≤ p → 0 < a → below_zero (pocket (data this')) = false)))
  ∧ (∃ this', removePocket (VNum n) this = (Ok this', this')
              ∧ pocket (data this')
                = Math_max (num_sub (pocket (data this)) n) (Fin 0)
              ∧ lost (data this') = num_add (lost (data this)) n
              ∧ below_zero (pocket (data this')) = false
              ∧ (∀ a p l, n = Fin a →
                   pocket (data this) = Fin p → lost (data this) = Fin l →
                   (safe (p - a) → pocket (data this') = Fin (p - Z.min a p))
                   ∧ (safe (l + a) → lost (data this') = Fin (l + a)))).
Proof.
  intros Hn. split.
  - eexists. split; [by rewrite addPocket_run by done|].
    unfold addPocket_result.
    cbn [data with_data set_changes pocket won set_pocket set_won].
    do 2 (split; [reflexivity|]).
    intros a p w -> Hp Hw. rewrite Hp, Hw.
    split; [apply num_add_safe|]. split; [apply num_add_safe|].
    intros Hp0 Ha0. apply round64_nonneg. lia.
  - eexists. split; [by rewrite removePocket_run by done|].
    unfold removePocket_result.
    cbn [data with_data set_changes pocket lost set_pocket set_lost].
    do 2 (split; [reflexivity|]).
    split; [apply Math_max_zero_not_below|].
    intros a p l -> Hp Hl. rewrite Hp, Hl. split.
    + intros Hs. rewrite num_sub_safe by done. cbn [Math_max]. f_equal. lia.
    + apply num_add_safe.
Qed.

Lemma pocket_add_remove_witness :
  (∃ this', addPocket (H := plain_runtime) (VNum (Fin 10)) (entry_with unreachable 5 0)
            = (Ok this', this')
            ∧ pocket (data this') = Fin (5 + 10))
  ∧ (∃ this', removePocket (H := plain_runtime) (VNum (Fin 10)) (entry_with unreachable 5 0)
              = (Ok this', this')
              ∧ pocket (data this') = Fin (5 - Z.min 10 5)).
Proof.
  destruct (pocket_add_remove (H := plain_runtime) (entry_with unreachable 5 0)
              (Fin 10) eq_refl)
    as [(this1 & Hrun1 & _ & _ & Hexact1) (this2 & Hrun2 & _ & _ & _ & Hexact2)].
  split.
  - exists this1. split; [exact Hrun1|].
    apply (Hexact1 10 5 0 eq_refl eq_refl eq_refl). unfold safe, two53. lia.
  - exists this2. split; [exact Hrun2|].
    apply (Hexact2 10 5 0 eq_refl eq_refl eq_refl). unfold safe, two53. lia.
Defined.

(** C4 as stated fails twice over.  On a record with pocket 5,
    [addPocket(-10)] leaves the pocket at -5, below 0; and on a record with
    pocket 2^53, [addPocket(1)] leaves the pocket at 2^53, not increased by
    the amount. *)
Lemma addPocket_below_zero :
  ¬ (∀ (R : Runtime) (this this' : UserEntry) (a p : Z),
       a ≠ 0 → pocket (data this) = Fin p → 0 ≤ p →
       fst (addPocket (VNum (Fin a)) this) = Ok this' →
       ∃ q, pocket (data this') = Fin q ∧ 0 ≤ q)
  ∧ ¬ (∀ (R : Runtime) (this this' : UserEntry) (a p : Z),
         a ≠ 0 → pocket (data this) = Fin p →
         fst (addPocket (VNum (Fin a)) this) = Ok this' →
         pocket (data this') = Fin (p + a)).
Proof.
  split.
  - intros Hclaim.
    destruct (Hclaim plain_runtime (entry_with unreachable 5 0)
                (snd (addPocket (H := plain_runtime) (VNum (Fin (-10)))
                        (entry_with unreachable 5 0)))
                (-10) 5) as (q & Hq & Hpos); [lia | reflexivity | lia | |].
    + vm_compute. reflexivity.
    + vm_compute in Hq. injection Hq as <-. lia.
  - intros Hclaim.
    pose proof (Hclaim plain_runtime (entry_with unreachable two53 0)
                  (snd (addPocket (H := plain_runtime) (VNum (Fin 1))
                          (entry_with unreachable two53 0)))
                  1 two53 ltac:(lia) eq_refl) as Hq.
    assert (Hrun : fst (addPocket (H := plain_runtime) (VNum (Fin 1))
                          (entry_with unreachable two53 0))
                   = Ok (snd (addPocket (H := plain_runtime) (VNum (Fin 1))
                                (entry_with unreachable two53 0))))
      by (vm_compute; reflexivity).
    specialize (Hq Hrun). vm_compute in Hq. discriminate Hq.
Qed.

(** C5.  For every record and every non-zero number [n], [addBank(n, true)]
    (and [addBank(n)], the default) returns with bank set to [bank + n] and
    pocket to [max(pocket - n, 0)], never a negative pocket.  The sums are
    those of binary64: where the fields and [n] are integers and a result
    is within 2^53 in magnitude it is the exact integer, and on a bank of
    2^53 [addBank(1)] leaves 2^53.  The witness is pocket=50, bank=0,
    [addBank(100, true)]: pocket 0, bank 100. *)
Theorem addBank_transfer `{Runtime} (this : UserEntry) (n : num) :
  truthy (VNum n) = true →
  (∃ this', addBank (VNum n) (VBool true) this = (Ok this', this')
            ∧ addBank (VNum n) VUndefined this = (Ok this', this')
            ∧ bank (data this') = num_add (bank (data this)) n
            ∧ pocket (data this')
              = Math_max (num_sub (pocket (data this)) n) (Fin 0)
            ∧ below_zero (pocket (data this')) = false
            ∧ (∀ a p b, n = Fin a →
                 pocket (data this) = Fin p → bank (data this) = Fin b →
                 (safe (b + a) → bank (data this') = Fin (b + a))
                 ∧ (safe (p - a) →
                    pocket (data this') = Fin (Z.max (p - a) 0)
                    ∧ 0 ≤ Z.max (p - a) 0)))
  ∧ bank (data (snd (addBank (H := plain_runtime) (VNum (Fin 1)) VUndefined
                       (entry_with unreachable 0 9007199254740992))))
    = Fin 9007199254740992.
Proof.
  intros Hn. split; [|vm_compute; reflexivity]. eexists.
  split; [by rewrite addBank_run by done|].
  split; [by rewrite addBank_run by done|].
  unfold addBank_result.
  cbn [or_default truthy data with_data set_changes pocket bank set_pocket set_bank].
  do 2 (split; [reflexivity|]).
  split; [apply Math_max_zero_not_below|].
  intros a p b -> Hp Hb. rewrite Hp, Hb.
  split; [apply num_add_safe|].
  intros Hs. rewrite num_sub_safe by done. cbn [Math_max]. split; [done|lia].
Qed.

Lemma addBank_transfer_witness :
  ∃ this', addBank (H := plain_runtime) (VNum (Fin 100)) (VBool true)
             (entry_with unreachable 50 0) = (Ok this', this')
           ∧ bank (data this') = Fin 100
           ∧ pocket (data this') = Fin 0.
Proof.
  destruct (addBank_transfer (H := plain_runtime) (entry_with unreachable 50 0)
              (Fin 100) eq_refl)
    as [(this' & Hrun & _ & _ & _ & _ & Hexact) _].
  destruct (Hexact 100 50 0 eq_refl eq_refl eq_refl) as [Hb Hp].
  exists this'. split; [exact Hrun|]. split.
  - apply Hb. unfold safe, two53. lia.
  - apply Hp. unfold safe, two53. lia.
Defined.




Lemma fails_fast_intro (m : value → method UserEntry) :
  (∀ amount this, truthy amount = false →
                  m amount this = (Thrown MissingAmount, this)) →
  (∀ amount this, truthy amount = true →
                  (∃ this', m amount this = (Ok this', this'))
                  ∨ m amount this = (Thrown TypeError, this)) →
  fails_fast m.
Proof.
  intros Hfalsy Htruthy amount this.
  destruct (truthy amount) eqn:Ht.
  - destruct (Htruthy _ this Ht) as [[this' ->]| ->]; simpl.
    + split; [split; discriminate | discriminate].
    + split; [split; discriminate | done].
  - rewrite (Hfalsy _ this Ht). simpl. split; done.
Qed.

Lemma Number_throws `{Runtime} amount e : Number amount = Thrown e → e = TypeError.
Proof.
  destruct amount; simpl; try discriminate;
    destruct (ObjectToNumber _); try discriminate; by intros [= <-].
Qed.

(** C7.  Each of [addPocket], [removePocket], [addBank] and [removeBank]
    throws the missing-amount error exactly when [amount] is falsy, and
    when a call throws the receiver is as it was: neither a field nor
    [_changes] has been assigned. *)
Theorem missing_amount `{Runtime} :
  fails_fast addPocket
  ∧ fails_fast removePocket
  ∧ (∀ transfer, fails_fast (λ amount, addBank amount transfer))
  ∧ (∀ transfer, fails_fast (λ amount, removeBank amount transfer)).
Proof.
  split; [|split; [|split]]; [| |intros transfer|intros transfer];
    apply fails_fast_intro; intros amount this Ht.
  - unfold addPocket. by rewrite Ht.
  - rewrite addPocket_run by done.
    destruct (Number amount) as [n|e] eqn:Hn; [eauto|].
    apply Number_throws in Hn as ->. by right.
  - unfold removePocket. by rewrite Ht.
  - rewrite removePocket_run by done.
    destruct (Number amount) as [n|e] eqn:Hn; [eauto|].
    apply Number_throws in Hn as ->. by right.
  - unfold addBank. by rewrite Ht.
  - rewrite addBank_run by done.
    destruct (Number amount) as [n|e] eqn:Hn; [eauto|].
    apply Number_throws in Hn as ->. by right.
  - unfold removeBank. by rewrite Ht.
  - rewrite removeBank_run by done.
    destruct (Number amount) as [n|e] eqn:Hn; [eauto|].
    apply Number_throws in Hn as ->. by right.
Qed.

Lemma missing_amount_witness :
  fst (addPocket (H := plain_runtime) (VNum (Fin 0)) (entry_with unreachable 5 0))
  = Thrown MissingAmount
  ∧ snd (removeBank (H := plain_runtime) (VStr "") VUndefined (entry_with unreachable 5 0))
    = entry_with unreachable 5 0.
Proof.
  destruct (missing_amount (H := plain_runtime)) as (Hadd & _ & _ & Hrem).
  split.
  - apply (Hadd (VNum (Fin 0)) (entry_with unreachable 5 0)). reflexivity.
  - apply (Hrem VUndefined (VStr "") (entry_with unreachable 5 0)) with MissingAmount.
    apply (Hrem VUndefined (VStr "") (entry_with unreachable 5 0)). reflexivity.
Defined.


(** ** updateStreak *)

Lemma updateStreak_run now timestamp streak this :
  let ts := default now timestamp in
  let st := default (num_add (Streak.streak (this_streak this)) (Fin 1)) streak in
  updateStreak now timestamp streak this
  = match _deepMerge (_changes this) (updateStreak_changes ts) with
    | Ok d =>
        let this' := set_changes d (with_data (set_streak (Streak.mk ts st)) this) in
        (Ok this', this')
    | Thrown e => (Thrown e, with_data (set_streak (Streak.mk ts st)) this)
    end.
Proof.
  intros ts st. unfold updateStreak. run_calls. fold ts.
  by destruct (_deepMerge (_changes this) (updateStreak_changes ts)).
Qed.

(** C6.  [updateStreak(timestamp, streak)] returns with the local streak
    set to the literal [{time: timestamp, streak}] (the defaults being the
    clock and the current streak plus one), and hands to [update] an object
    that does not depend on [streak]: afterwards [_changes.streak.time] is
    the literal timestamp and [_changes.streak.streak] is
    [r.row('streak')('streak').add(1)]. *)
Theorem updateStreak_local_and_deferred (this : UserEntry) (now : num)
    (timestamp streak : option num) :
  let ts := default now timestamp in
  let st := default (num_add (Streak.streak (this_streak this)) (Fin 1)) streak in
  ∃ this', updateStreak now timestamp streak this = (Ok this', this')
           ∧ this_streak this' = Streak.mk ts st
           ∧ _deepMerge (_changes this) (updateStreak_changes ts)
             = Ok (_changes this')
           ∧ lookup_path ["streak"; "time"] (VObj (_changes this'))
             = Some (VNum ts)
           ∧ lookup_path ["streak"; "streak"] (VObj (_changes this'))
             = Some (VTerm (RAdd (RBracket (RRow "streak") "streak") (Fin 1))).
Proof.
  intros ts st.
  destruct (deepMerge_total_null_free (updateStreak_changes ts) eq_refl
              (_changes this)) as [d Hd].
  exists (set_changes d (with_data (set_streak (Streak.mk ts st)) this)).
  split; [|split; [reflexivity|split; [exact Hd|split]]].
  - rewrite updateStreak_run. fold ts st. rewrite Hd. reflexivity.
  - apply (deepMerge_path_overwrite ["streak"; "time"] (_changes this)
             (updateStreak_changes ts) d (VNum ts)); [discriminate|reflexivity|discriminate|exact Hd].
  - apply (deepMerge_path_overwrite ["streak"; "streak"] (_changes this)
             (updateStreak_changes ts) d streak_add_1); [discriminate|reflexivity|discriminate|exact Hd].
Qed.

(** ** save *)

(** C1.  [save] never assigns to the receiver.  When the database answers
    with a change list, the promise resolves with a new entry built by the
    constructor from [changes[0].new_val] alone: its fields are that
    document's, it keeps the client, and its [_changes] is empty.  When the
    database rejects the query the promise rejects with the same error; the
    receiver being unchanged, saving again sends the same query. *)
Theorem save_returns_stored_document (this : UserEntry) :
  snd (save this) = this
  ∧ (∀ c first rest,
       run (_client this) (save_query this) = Ok c →
       changes c = first :: rest →
       ∃ fresh, fst (save this) = Ok fresh
                ∧ fresh = new_UserEntry (new_val first) (_client this)
                ∧ data fresh = new_val first
                ∧ _changes fresh = ∅)
  ∧ (∀ e, run (_client this) (save_query this) = Thrown e →
          fst (save this) = Thrown e
          ∧ save_query (snd (save this)) = save_query this
          ∧ save (snd (save this)) = save this).
Proof.
  assert (Hsame : snd (save this) = this).
  { unfold save. run_calls.
    destruct (run (_client this) (save_query this)) as [c|e]; [|done].
    by destruct (changes c). }
  split; [done|]. split.
  - intros c first rest Hrun Hc. eexists. split; [|done].
    unfold save. run_calls. by rewrite Hrun, Hc.
  - intros e Hrun. rewrite Hsame. split; [|done].
    unfold save. run_calls. by rewrite Hrun.
Qed.

Lemma save_returns_stored_document_witness :
  (∃ fresh,
     fst (save (entry_with (answering (blank_user "U1")) 5 0)) = Ok fresh
     ∧ fresh = new_UserEntry (blank_user "U1") (answering (blank_user "U1"))
     ∧ data fresh = blank_user "U1"
     ∧ _changes fresh = ∅)
  ∧ fst (save (entry_with unreachable 5 0))
    = Thrown (GatewayError "connection refused").
Proof.
  split.
  - destruct (save_returns_stored_document
                (entry_with (answering (blank_user "U1")) 5 0)) as (_ & Hok & _).
    exact (Hok (mkResponse [mkChange (blank_user "U1")])
               (mkChange (blank_user "U1")) [] eq_refl eq_refl).
  - destruct (save_returns_stored_document (entry_with unreachable 5 0))
      as (_ & _ & Herr).
    exact (proj1 (Herr (GatewayError "connection refused") eq_refl)).
Defined.

(** ** Serialisation *)

Lemma plain_step_keeps (P : string → member → Prop) obj p :
  (∀ key m, obj !! key = Some m → P key m) →
  (typeof_member p.2 ≠ TFunction → p.1 ∉ ["_client"; "_changes"] → P p.1 p.2) →
  ∀ key m, plain_step obj p !! key = Some m → P key m.
Proof.
  intros Hobj Hp key m. destruct p as [k v]. unfold plain_step. simpl in *.
  destruct (bool_decide (typeof_member v = TFunction)) eqn:Hty; simpl; [by auto|].
  destruct (bool_decide (k ∈ ["_client"; "_changes"])) eqn:Hin; simpl; [by auto|].
  apply bool_decide_eq_false_1 in Hty, Hin.
  intros Hl. apply lookup_insert_Some in Hl as [[<- <-]|[_ Hl]]; auto.
Qed.

Lemma foldl_plain_step_keeps (P : string → member → Prop) props :
  ∀ obj,
    (∀ key m, obj !! key = Some m → P key m) →
    (∀ p, p ∈ props → typeof_member p.2 ≠ TFunction →
          p.1 ∉ ["_client"; "_changes"] → P p.1 p.2) →
    ∀ key m, foldl plain_step obj props !! key = Some m → P key m.
Proof.
  induction props as [|p props IH]; intros obj Hobj Hprops; simpl; [done|].
  apply IH.
  - apply plain_step_keeps; [done|]. apply Hprops. by left.
  - intros q Hq. apply Hprops. by right.
Qed.

Lemma toJSON_overflows `{Runtime} stack this :
  toJSON stack this = Thrown RangeError.
Proof.
  induction stack as [|stack IH]; [done|].
  simpl. unfold JSON_stringify. by rewrite IH.
Qed.

Lemma toPlainObject_members this key m :
  toPlainObject this !! key = Some m →
  (key, m) ∈ ownProperties this
  ∧ typeof_member m ≠ TFunction
  ∧ key ≠ "_client" ∧ key ≠ "_changes".
Proof.
  unfold toPlainObject.
  apply (foldl_plain_step_keeps
           (λ key m, (key, m) ∈ ownProperties this
                     ∧ typeof_member m ≠ TFunction
                     ∧ key ≠ "_client" ∧ key ≠ "_changes")).
  - intros k v Hl. by rewrite lookup_empty in Hl.
  - intros [k v] Hin Hty Hex. simpl in *. split; [done|]. split; [done|].
    split; intros ->; apply Hex; repeat constructor.
Qed.

(** C8.  [toPlainObject] holds no [_client] key, no [_changes] key and no
    function, only own properties of the entry; the data fields are all
    there ([pocket] and [streak] shown).  [toJSON], however, returns no
    text: [JSON.stringify(this)] calls [this.toJSON] again, and the calls
    nest until the stack is exhausted, whatever its size. *)
Theorem serialisation_views `{Runtime} (this : UserEntry) :
  (∀ stack, toJSON stack this = Thrown RangeError)
  ∧ toPlainObject this !! "_client" = None
  ∧ toPlainObject this !! "_changes" = None
  ∧ (∀ key m, toPlainObject this !! key = Some m →
              (key, m) ∈ ownProperties this ∧ typeof_member m ≠ TFunction)
  ∧ toPlainObject this !! "pocket" = Some (MValue (VNum (pocket (data this))))
  ∧ toPlainObject this !! "streak" = Some (MValue (streak_value (streak (data this)))).
Proof.
  split; [intros stack; apply toJSON_overflows|].
  split.
  { destruct (toPlainObject this !! "_client") as [m|] eqn:Hl; [|done].
    apply toPlainObject_members in Hl as (_ & _ & Hc & _). by destruct Hc. }
  split.
  { destruct (toPlainObject this !! "_changes") as [m|] eqn:Hl; [|done].
    apply toPlainObject_members in Hl as (_ & _ & _ & Hc). by destruct Hc. }
  split.
  { intros key m Hl. apply toPlainObject_members in Hl as (Hin & Hty & _).
    by split. }
  split; reflexivity.
Qed.

(** ** _deepMerge: merging with itself, and null *)

(** C9.  [merge(X, X) = X] for every mapping [X].  But the merge is not
    total: where the target holds a mapping and the source [null] at the
    same key, [typeof null === 'object'] sends the merge into the recursive
    call on [null], where [Object.keys(null)] throws a TypeError.  The same
    test turns a [null] of the target that the source does not touch into
    an empty mapping. *)
Theorem deepMerge_self_and_null :
  (∀ X : gmap string value, _deepMerge X X = Ok X)
  ∧ _deepMerge {[ "a" := VObj {[ "b" := VNum (Fin 1) ]} ]} {[ "a" := VNull ]}
    = Thrown TypeError
  ∧ _deepMerge {[ "a" := VNull ]} ∅ = Ok {[ "a" := VObj ∅ ]}.
Proof.
  split; [apply deepMerge_self|].
  split; vm_compute; reflexivity.
Qed.

(** ** A later mutation overwrites an earlier one *)

Lemma null_free_path path :
  ∀ v op, null_free v = true → lookup_path path v = Some op →
          null_free op = true.
Proof.
  induction path as [|key rest IH]; intros v op Hnf Hp; simpl in Hp.
  - by injection Hp as <-.
  - destruct v as [| |b|n|s|r|o]; try done.
    destruct (o !! key) as [w|] eqn:Hl; [|done]. simpl in Hp.
    eapply IH; [|done]. by eapply null_free_lookup.
Qed.

Lemma null_free_leaf op :
  null_free op = true → (∀ o, op ≠ VObj o) → typeof op ≠ TObject.
Proof. destruct op as [| |b|n|s|r|o]; try done. intros _ Hno. by destruct (Hno o). Qed.

Lemma deferred_null_free `{Runtime} m : null_free (VObj (deferred m)) = true.
Proof.
  destruct m; simpl; try reflexivity.
  - unfold addBank_changes. by destruct (truthy _).
  - unfold removeBank_changes. by destruct (truthy _).
Qed.

Lemma call_deferred `{Runtime} m this this' :
  fst (call m this) = Ok this' →
  snd (call m this) = this'
  ∧ _deepMerge (_changes this) (deferred m) = Ok (_changes this').
Proof.
  destruct m as [amount|amount|amount transfer|amount transfer|now ts st| |amount|amount|now cmd ts];
    simpl.
  - destruct (truthy amount) eqn:Ht; [|unfold addPocket; by rewrite Ht].
    rewrite addPocket_run by done. unfold coerced.
    destruct (Number amount) as [n|e]; [|done].
    cbn [fst snd]. intros [= <-]. split; [done|].
    by rewrite deepMerge_flat by apply addPocket_changes_flat.
  - destruct (truthy amount) eqn:Ht; [|unfold removePocket; by rewrite Ht].
    rewrite removePocket_run by done. unfold coerced.
    destruct (Number amount) as [n|e]; [|done].
    cbn [fst snd]. intros [= <-]. split; [done|].
    by rewrite deepMerge_flat by apply removePocket_changes_flat.
  - destruct (truthy amount) eqn:Ht; [|unfold addBank; by rewrite Ht].
    rewrite addBank_run by done. unfold coerced.
    destruct (Number amount) as [n|e]; [|done].
    cbn [fst snd]. intros [= <-]. split; [done|].
    by rewrite deepMerge_flat by apply addBank_changes_flat.
  - destruct (truthy amount) eqn:Ht; [|unfold removeBank; by rewrite Ht].
    rewrite removeBank_run by done. unfold coerced.
    destruct (Number amount) as [n|e]; [|done].
    cbn [fst snd]. intros [= <-]. split; [done|].
    by rewrite deepMerge_flat by apply removeBank_changes_flat.
  - rewrite updateStreak_run.
    destruct (_deepMerge (_changes this) (updateStreak_changes (default now ts)))
      as [d|e]; [|done].
    cbn [fst snd]. by intros [= <-].
  - unfold resetStreak. run_calls.
    destruct (_deepMerge (_changes this) resetStreak_changes) as [d|e]; [|done].
    cbn [fst snd]. by intros [= <-].
  - unfold addPls. run_calls.
    destruct (_deepMerge (_changes this) (addPls_changes (default (Fin 1) amount)))
      as [d|e]; [|done].
    cbn [fst snd]. by intros [= <-].
  - unfold addSpam. run_calls.
    destruct (_deepMerge (_changes this) (addSpam_changes (default (Fin 1) amount)))
      as [d|e]; [|done].
    cbn [fst snd]. by intros [= <-].
  - unfold setLastCmd. run_calls.
    destruct (_deepMerge (_changes this)
                (setLastCmd_changes (default "nothing" cmd) (default now ts)))
      as [d|e]; [|done].
    cbn [fst snd]. by intros [= <-].
Qed.

(** C3.  When two mutating calls have returned one after the other, every
    path at which the object deferred by the second call holds an operation
    (a leaf, not a nested mapping) holds exactly that operation in
    [_changes]: whatever the first call left there is overwritten, not
    composed with.  So after [addPocket(10)] then [removePocket(5)] the
    pocket entry is the clamped subtraction of 5 alone, no addition of 10
    is left in it, while [won] and [lost] keep their own entries. *)
Theorem later_mutation_overwrites `{Runtime} :
  (∀ (this this1 this2 : UserEntry) (m1 m2 : mutation)
     (path : list string) (op : value),
      fst (call m1 this) = Ok this1 →
      fst (call m2 this1) = Ok this2 →
      path ≠ [] →
      lookup_path path (VObj (deferred m2)) = Some op →
      (∀ o, op ≠ VObj o) →
      lookup_path path (VObj (_changes this2)) = Some op)
  ∧ (∀ this : UserEntry,
       ∃ this1 this2,
         addPocket (VNum (Fin 10)) this = (Ok this1, this1)
         ∧ removePocket (VNum (Fin 5)) this1 = (Ok this2, this2)
         ∧ _changes this1 !! "pocket"
           = Some (VTerm (RAdd (RRow "pocket") (Fin 10)))
         ∧ _changes this2 !! "pocket"
           = Some (VTerm (RMax (RExpr [RSub (RRow "pocket") (Fin 5); RDatum (Fin 0)])))
         ∧ _changes this2 !! "won" = Some (VTerm (RAdd (RRow "won") (Fin 10)))
         ∧ _changes this2 !! "lost"
           = Some (VTerm (RAdd (RRow "lost") (Fin 5)))).
Proof.
  split.
  - intros this this1 this2 m1 m2 path op _ H2 Hpath Hop Hleaf.
    apply call_deferred in H2 as [_ Hmerge].
    apply (deepMerge_path_overwrite path (_changes this1) (deferred m2));
      [done|done| |done].
    apply null_free_leaf; [|done].
    eapply null_free_path; [|done]. apply deferred_null_free.
  - intros this. eexists _, _.
    split; [by rewrite addPocket_run by done|].
    split; [by rewrite removePocket_run by done|].
    unfold removePocket_result, addPocket_result.
    cbn [_changes set_changes with_data].
    split; [by apply lookup_union_Some_l|].
    split; [by apply lookup_union_Some_l|].
    split; [|by apply lookup_union_Some_l].
    rewrite lookup_union_r by reflexivity. rewrite lookup_fmap.
    by erewrite lookup_union_Some_l by reflexivity.
Qed.

Lemma later_mutation_overwrites_witness :
  lookup_path ["streak"; "streak"]
    (VObj (_changes
             (snd (call (H := plain_runtime) ResetStreak
                     (snd (call (H := plain_runtime)
                             (UpdateStreak (Fin 1000) None None)
                             (entry_with unreachable 5 0)))))))
  = Some (VNum (Fin 0)).
Proof.
  apply (proj1 (later_mutation_overwrites (H := plain_runtime))
           (entry_with unreachable 5 0)
           (snd (call (H := plain_runtime) (UpdateStreak (Fin 1000) None None)
                   (entry_with unreachable 5 0)))
           _ (UpdateStreak (Fin 1000) None None) ResetStreak).
  - vm_compute. reflexivity.
  - vm_compute. reflexivity.
  - discriminate.
  - reflexivity.
  - discriminate.
Defined.

(** * Further properties *)

(** ** _deepMerge *)

Lemma copyEntry_not_null v : v ≠ VNull → copyEntry v = v.
Proof. by destruct v. Qed.

Lemma copyEntry_idemp v : copyEntry (copyEntry v) = copyEntry v.
Proof. by destruct v. Qed.

Lemma deepMerge_untouched_key (target source d : gmap string value) key v :
  _deepMerge target source = Ok d →
  source !! key = None →
  target !! key = Some v →
  v ≠ VNull →
  d !! key = Some v.
Proof.
  intros Hd Hs Hv Hn.
  pose proof (deepMerge_lookup _ _ _ key Hd) as Hk. rewrite Hs in Hk.
  rewrite Hk, Hv. simpl. by rewrite copyEntry_not_null.
Qed.

Lemma deepMerge_is_Some (target source d : gmap string value) key :
  _deepMerge target source = Ok d →
  is_Some (d !! key) ↔ is_Some (target !! key) ∨ is_Some (source !! key).
Proof.
  intros Hd.
  pose proof (deepMerge_lookup _ _ _ key Hd) as Hk.
  destruct (source !! key) as [sv|] eqn:Hs.
  - destruct Hk as (v & _ & ->). split; [intros _; right|]; eauto.
  - rewrite Hk. rewrite fmap_is_Some. split; [by left|].
    intros [?|[? ?]]; done.
Qed.

(** X1.  Between plain mappings, a key of the target that the source does
    not have keeps the target's value, unless that value is [null], which
    the first loop turns into an empty mapping. *)
Theorem deepMerge_keeps_target_keys (target source d : gmap string value)
    (key : string) :
  plain (VObj target) = true →
  plain (VObj source) = true →
  _deepMerge target source = Ok d →
  source !! key = None →
  d !! key = copyEntry <$> target !! key
  ∧ (∀ v, target !! key = Some v → v ≠ VNull → d !! key = Some v)
  ∧ (target !! key = Some VNull → d !! key = Some (VObj ∅)).
Proof.
  intros _ _ Hd Hs.
  pose proof (deepMerge_lookup _ _ _ key Hd) as Hk. rewrite Hs in Hk.
  split; [done|]. split.
  - intros v Hv Hn. rewrite Hk, Hv. simpl. by rewrite copyEntry_not_null.
  - intros Hv. by rewrite Hk, Hv.
Qed.

Lemma deepMerge_keeps_target_keys_witness :
  ({[ "a" := VNum (Fin 1); "b" := VStr "x" ]} : gmap string value) !! "a"
  = Some (VNum (Fin 1)).
Proof.
  apply (deepMerge_keeps_target_keys
           {[ "a" := VNum (Fin 1) ]} {[ "b" := VStr "x" ]}
           {[ "a" := VNum (Fin 1); "b" := VStr "x" ]} "a");
    [reflexivity | reflexivity | vm_compute; reflexivity | reflexivity
    | reflexivity | discriminate].
Defined.

(** X2.  The merge of plain mappings has exactly the keys of the target
    and of the source. *)
Theorem deepMerge_dom (target source d : gmap string value) :
  plain (VObj target) = true →
  plain (VObj source) = true →
  _deepMerge target source = Ok d →
  dom d = dom target ∪ dom source.
Proof.
  intros _ _ Hd. apply set_eq. intros key.
  rewrite elem_of_union, !elem_of_dom. by apply deepMerge_is_Some.
Qed.

Lemma deepMerge_dom_witness :
  dom ({[ "a" := VNum (Fin 1); "b" := VStr "x" ]} : gmap string value)
  = dom ({[ "a" := VNum (Fin 1) ]} : gmap string value)
    ∪ dom ({[ "b" := VStr "x" ]} : gmap string value).
Proof.
  apply (deepMerge_dom {[ "a" := VNum (Fin 1) ]} {[ "b" := VStr "x" ]});
    [reflexivity | reflexivity | vm_compute; reflexivity].
Defined.

Lemma deepMergeInto_throws_TypeError source :
  ∀ target e, deepMergeInto target source = Thrown e → e = TypeError.
Proof.
  induction source as [source IH] using value_nested_ind.
  intros target e He.
  destruct source as [| |b|n|s|r|src]; try (simpl in He; congruence).
  apply (deepMerge_thrown target src e) in He as (key & sv & Hl & He).
  apply entryValue_thrown_inv in He as (t & _ & _ & Hrec).
  by eapply (IH src eq_refl key sv Hl).
Qed.

(** X3.  The only exception [_deepMerge] throws is a TypeError, and it
    throws it only when the source holds a [null] somewhere. *)
Theorem deepMerge_throws_only_on_null (target source : gmap string value)
    (e : exn) :
  _deepMerge target source = Thrown e →
  e = TypeError ∧ null_free (VObj source) = false.
Proof.
  intros He. split; [by eapply deepMergeInto_throws_TypeError|].
  destruct (null_free (VObj source)) eqn:Hnf; [|done].
  destruct (deepMerge_total_null_free source Hnf target) as [d Hd].
  rewrite Hd in He. discriminate.
Qed.

Lemma deepMerge_throws_only_on_null_witness :
  TypeError = TypeError
  ∧ null_free (VObj {[ "a" := VNull ]}) = false.
Proof.
  apply (deepMerge_throws_only_on_null
           {[ "a" := VObj {[ "b" := VNum (Fin 1) ]} ]} {[ "a" := VNull ]}).
  vm_compute. reflexivity.
Defined.

Lemma deepMerge_into_empty (m : gmap string value) : _deepMerge ∅ m = Ok m.
Proof.
  destruct (_deepMerge ∅ m) as [d|e] eqn:Hd.
  - f_equal. apply map_eq. intros key.
    pose proof (deepMerge_lookup _ _ _ key Hd) as Hk.
    destruct (m !! key) as [sv|] eqn:Hs.
    + destruct Hk as (v & Hv & ->).
      rewrite entryValue_replace in Hv; [congruence|].
      intros t. unfold get. by rewrite lookup_empty.
    + by rewrite Hk, lookup_empty.
  - apply deepMerge_thrown in Hd as (key & sv & _ & He).
    rewrite entryValue_replace in He; [done|].
    intros t. unfold get. by rewrite lookup_empty.
Qed.

(** X4.  For a plain mapping [m]: merging [m] into the empty mapping
    returns [m] as it is, even when it holds [null]; merging the empty
    mapping into [m] returns [m] with its [null]s turned into empty
    mappings. *)
Theorem deepMerge_empty (m : gmap string value) :
  plain (VObj m) = true →
  _deepMerge ∅ m = Ok m
  ∧ _deepMerge m ∅ = Ok (copyEntry <$> m).
Proof.
  intros _. split; [apply deepMerge_into_empty|].
  unfold _deepMerge. rewrite deepMergeInto_obj. by rewrite map_fold_empty.
Qed.

Lemma deepMerge_empty_witness :
  _deepMerge ∅ {[ "a" := VNull ]} = Ok {[ "a" := VNull ]}
  ∧ _deepMerge {[ "a" := VNull ]} ∅ = Ok (copyEntry <$> {[ "a" := VNull ]}).
Proof. apply (deepMerge_empty {[ "a" := VNull ]}). reflexivity. Defined.

Lemma entryValue_Ok_inv tv sv v :
  entryValue deepMergeInto tv sv = Ok v →
  v = sv
  ∨ ∃ t s r, tv = VObj t ∧ sv = VObj s ∧ _deepMerge t s = Ok r ∧ v = VObj r.
Proof.
  intros Hv.
  destruct tv as [| |b|n|s'|r'|t];
    try (rewrite entryValue_replace in Hv by done; left; congruence).
  destruct sv as [| |b|n|s'|r'|s];
    try (rewrite entryValue_leaf in Hv by done; left; congruence).
  rewrite entryValue_recurse in Hv.
  destruct (_deepMerge t s) as [r|e] eqn:Hr; [|done].
  injection Hv as <-. right. by exists t, s, r.
Qed.

Lemma deepMerge_again_aux source :
  ∀ src, source = VObj src →
  ∀ target d, _deepMerge target src = Ok d → _deepMerge d src = Ok d.
Proof.
  induction source as [source IH] using value_nested_ind.
  intros src -> target d Hd.
  assert (Hkey : ∀ key sv v,
             src !! key = Some sv → d !! key = Some v →
             entryValue deepMergeInto (get target key) sv = Ok v →
             entryValue deepMergeInto (get d key) sv = Ok v).
  { intros key sv v Hs Hdk Hv. unfold get at 1. rewrite Hdk. simpl.
    apply entryValue_Ok_inv in Hv as [->|(t & s & r & _ & -> & Hr & ->)].
    - apply entryValue_self. intros s _. apply deepMerge_self.
    - rewrite entryValue_recurse.
      by rewrite (IH src eq_refl key (VObj s) Hs s eq_refl t r Hr). }
  destruct (_deepMerge d src) as [d'|e] eqn:Hd'.
  - f_equal. apply map_eq. intros key.
    pose proof (deepMerge_lookup _ _ _ key Hd) as Hk.
    pose proof (deepMerge_lookup _ _ _ key Hd') as Hk'.
    destruct (src !! key) as [sv|] eqn:Hs.
    + destruct Hk as (v & Hv & Hdk). destruct Hk' as (v' & Hv' & ->).
      rewrite (Hkey key sv v Hs Hdk Hv) in Hv'. congruence.
    + rewrite Hk', Hk. destruct (target !! key) as [tv|]; [|done].
      simpl. by rewrite copyEntry_idemp.
  - apply deepMerge_thrown in Hd' as (key & sv & Hs & He).
    pose proof (deepMerge_lookup _ _ _ key Hd) as Hk. rewrite Hs in Hk.
    destruct Hk as (v & Hv & Hdk).
    rewrite (Hkey key sv v Hs Hdk Hv) in He. done.
Qed.

(** X5.  Merging the same source a second time changes nothing: when
    [_deepMerge(target, source)] returns [d], so does
    [_deepMerge(d, source)]. *)
Theorem deepMerge_again (target source d : gmap string value) :
  _deepMerge target source = Ok d → _deepMerge d source = Ok d.
Proof. intros Hd. by eapply deepMerge_again_aux. Qed.

Lemma deepMerge_again_witness :
  _deepMerge {[ "a" := VObj {[ "b" := VNum (Fin 9); "c" := VNum (Fin 2) ]} ]}
             {[ "a" := VObj {[ "b" := VNum (Fin 9) ]} ]}
  = Ok {[ "a" := VObj {[ "b" := VNum (Fin 9); "c" := VNum (Fin 2) ]} ]}.
Proof.
  apply (deepMerge_again
           {[ "a" := VObj {[ "b" := VNum (Fin 1); "c" := VNum (Fin 2) ]} ]}).
  vm_compute. reflexivity.
Defined.

(** ** update *)

(** X6.  [update] is idempotent and leaves the local fields alone: calling
    it twice with the same object has the outcome and leaves the receiver
    in the state of calling it once; the receiver keeps its fields and its
    client, and is unchanged altogether when the call throws. *)
Theorem update_twice (object : gmap string value) (this : UserEntry) :
  (update object ≫= λ _, update object) this = update object this
  ∧ data (snd (update object this)) = data this
  ∧ _client (snd (update object this)) = _client this
  ∧ (∀ e, fst (update object this) = Thrown e → snd (update object this) = this).
Proof.
  unfold mbind, method_bind. rewrite update_spec.
  destruct (_deepMerge (_changes this) object) as [d|e] eqn:Hd;
    [|by repeat split].
  split; [|by repeat split].
  rewrite update_spec. cbn [_changes set_changes].
  by rewrite (deepMerge_again_aux (VObj object) object eq_refl _ _ Hd).
Qed.

Lemma update_twice_witness :
  fst (update {[ "pls" := VNull ]}
         (set_changes {[ "pls" := VObj ∅ ]} (entry_with unreachable 5 0)))
  = Thrown TypeError
  ∧ snd (update {[ "pls" := VNull ]}
           (set_changes {[ "pls" := VObj ∅ ]} (entry_with unreachable 5 0)))
    = set_changes {[ "pls" := VObj ∅ ]} (entry_with unreachable 5 0).
Proof.
  split; [vm_compute; reflexivity|].
  apply (update_twice {[ "pls" := VNull ]}
           (set_changes {[ "pls" := VObj ∅ ]} (entry_with unreachable 5 0)))
    with TypeError.
  vm_compute. reflexivity.
Defined.

(** ** The methods without validation *)

Lemma get_Some (o : gmap string value) key v : o !! key = Some v → get o key = v.
Proof. intros Hl. unfold get. by rewrite Hl. Qed.

Lemma updateStreak_returns (this : UserEntry) (now : num)
    (timestamp streak : option num) :
  ∃ d, _deepMerge (_changes this) (updateStreak_changes (default now timestamp))
       = Ok d
       ∧ updateStreak now timestamp streak this
         = (let this' :=
              set_changes d
                (with_data
                   (set_streak
                      (Streak.mk (default now timestamp)
                         (default (num_add (Streak.streak (this_streak this)) (Fin 1))
                                  streak)))
                   this) in
            (Ok this', this')).
Proof.
  destruct (deepMerge_total_null_free
              (updateStreak_changes (default now timestamp)) eq_refl
              (_changes this)) as [d Hd].
  exists d. split; [done|]. by rewrite updateStreak_run, Hd.
Qed.

Lemma resetStreak_changes_merge (c : gmap string value) :
  ∃ d, _deepMerge c resetStreak_changes = Ok d.
Proof. apply deepMerge_total_null_free. reflexivity. Qed.

Lemma resetStreak_run this :
  resetStreak this
  = match _deepMerge (_changes this) resetStreak_changes with
    | Ok d =>
        let this' :=
          set_changes d
            (with_data
               (set_streak (Streak.mk (Streak.time (this_streak this)) (Fin 0)))
               this) in
        (Ok this', this')
    | Thrown e =>
        (Thrown e,
         with_data
           (set_streak (Streak.mk (Streak.time (this_streak this)) (Fin 0)))
           this)
    end.
Proof.
  unfold resetStreak. run_calls.
  by destruct (_deepMerge (_changes this) resetStreak_changes).
Qed.

(** X7.  [resetStreak] always returns.  It sets the local streak count to
    0 and keeps the local time; [_changes.streak.streak] becomes the
    literal 0, and a pending [_changes.streak.time] that is not [null]
    (the timestamp of an earlier [updateStreak]) is still there. *)
Theorem resetStreak_keeps_time (this : UserEntry) :
  ∃ this', resetStreak this = (Ok this', this')
           ∧ this_streak this'
             = Streak.mk (Streak.time (this_streak this)) (Fin 0)
           ∧ lookup_path ["streak"; "streak"] (VObj (_changes this'))
             = Some (VNum (Fin 0))
           ∧ (∀ v, lookup_path ["streak"; "time"] (VObj (_changes this)) = Some v →
                   v ≠ VNull →
                   lookup_path ["streak"; "time"] (VObj (_changes this')) = Some v).
Proof.
  destruct (resetStreak_changes_merge (_changes this)) as [d Hd].
  eexists. split; [by rewrite resetStreak_run, Hd|].
  split; [done|]. cbn [_changes set_changes].
  split.
  - apply (deepMerge_path_overwrite ["streak"; "streak"] (_changes this)
             resetStreak_changes d (VNum (Fin 0)));
      [discriminate|reflexivity|discriminate|exact Hd].
  - intros v Hv Hn. cbn [lookup_path] in *.
    destruct (_changes this !! "streak") as [old|] eqn:Hold;
      [|discriminate Hv].
    cbn [mbind option_bind] in Hv.
    destruct old as [| |b|n|s|r|o]; try discriminate Hv.
    pose proof (deepMerge_lookup _ _ _ "streak" Hd) as Hk.
    change (resetStreak_changes !! "streak")
      with (Some (VObj {[ "streak" := VNum (Fin 0) ]})) in Hk.
    destruct Hk as (w & Hw & ->). rewrite (get_Some _ _ _ Hold) in Hw.
    rewrite entryValue_recurse in Hw.
    destruct (_deepMerge o {[ "streak" := VNum (Fin 0) ]}) as [m|e] eqn:Hm;
      [|discriminate Hw].
    injection Hw as <-. cbn [mbind option_bind].
    destruct (o !! "time") as [tv|] eqn:Ht; [|discriminate Hv].
    cbn [mbind option_bind] in Hv. injection Hv as ->.
    rewrite (deepMerge_untouched_key _ _ _ "time" v Hm eq_refl Ht Hn).
    reflexivity.
Qed.

Lemma resetStreak_keeps_time_witness :
  lookup_path ["streak"; "time"]
    (VObj (_changes
             (snd (resetStreak
                     (snd (updateStreak (Fin 7) None None
                             (entry_with unreachable 5 0)))))))
  = Some (VNum (Fin 7)).
Proof.
  destruct (resetStreak_keeps_time
              (snd (updateStreak (Fin 7) None None (entry_with unreachable 5 0))))
    as (this' & Hrun & _ & _ & Htime).
  rewrite Hrun. cbn [snd].
  apply (Htime (VNum (Fin 7))); [vm_compute; reflexivity | discriminate].
Defined.

(** X8.  [resetStreak] followed by [updateStreak()] loses the reset in
    what is deferred: the local streak is [{time: now, streak: 1}], but
    [_changes.streak.streak] is the relative [add(1)], which the database
    applies to the streak it has stored. *)
Theorem reset_then_update_streak (this : UserEntry) (now : num) :
  ∃ this1 this2,
    resetStreak this = (Ok this1, this1)
    ∧ updateStreak now None None this1 = (Ok this2, this2)
    ∧ this_streak this2 = Streak.mk now (Fin 1)
    ∧ lookup_path ["streak"; "streak"] (VObj (_changes this2))
      = Some (VTerm (RAdd (RBracket (RRow "streak") "streak") (Fin 1)))
    ∧ lookup_path ["streak"; "time"] (VObj (_changes this2))
      = Some (VNum now).
Proof.
  destruct (resetStreak_changes_merge (_changes this)) as [d1 Hd1].
  pose (this1 := set_changes d1
                   (with_data
                      (set_streak (Streak.mk (Streak.time (this_streak this)) (Fin 0)))
                      this)).
  destruct (updateStreak_returns this1 now None None) as (d2 & Hd2 & Hrun2).
  exists this1. eexists.
  split; [by rewrite resetStreak_run, Hd1|].
  split; [exact Hrun2|].
  split; [reflexivity|].
  cbn [_changes set_changes default] in *. split.
  - apply (deepMerge_path_overwrite ["streak"; "streak"] d1
             (updateStreak_changes now) d2 streak_add_1);
      [discriminate|reflexivity|discriminate|exact Hd2].
  - apply (deepMerge_path_overwrite ["streak"; "time"] d1
             (updateStreak_changes now) d2 (VNum now));
      [discriminate|reflexivity|discriminate|exact Hd2].
Qed.

Lemma reset_then_update_streak_witness :
  ∃ this2,
    fst (updateStreak (Fin 9) None None
           (snd (resetStreak (entry_with unreachable 5 0)))) = Ok this2
    ∧ this_streak this2 = Streak.mk (Fin 9) (Fin 1)
    ∧ lookup_path ["streak"; "streak"] (VObj (_changes this2))
      = Some (VTerm (RAdd (RBracket (RRow "streak") "streak") (Fin 1))).
Proof.
  destruct (reset_then_update_streak (entry_with unreachable 5 0) (Fin 9))
    as (this1 & this2 & H1 & H2 & Hs & Hc & _).
  exists this2. rewrite H1. cbn [snd]. rewrite H2.
  exact (conj eq_refl (conj Hs Hc)).
Defined.

Lemma flat_merge_lookup (c patch : gmap string value) key v :
  patch !! key = Some v →
  (patch ∪ (copyEntry <$> c)) !! key = Some v.
Proof. apply lookup_union_Some_l. Qed.

Lemma flat_merge_other (c patch : gmap string value) key :
  patch !! key = None →
  (patch ∪ (copyEntry <$> c)) !! key = copyEntry <$> c !! key.
Proof. intros Hn. rewrite lookup_union_r by done. apply lookup_fmap. Qed.

Lemma addPls_run amount this :
  let n := default (Fin 1) amount in
  let this' :=
    set_changes (addPls_changes n ∪ (copyEntry <$> _changes this))
      (with_data (set_pls (num_add (pls (data this)) n)) this) in
  addPls amount this = (Ok this', this').
Proof.
  intros n this'. unfold addPls. run_calls. fold n.
  by rewrite deepMerge_flat by (by apply flat_single).
Qed.

Lemma addSpam_run amount this :
  let n := default (Fin 1) amount in
  let this' :=
    set_changes (addSpam_changes n ∪ (copyEntry <$> _changes this))
      (with_data (set_spam (num_add (spam (data this)) n)) this) in
  addSpam amount this = (Ok this', this').
Proof.
  intros n this'. unfold addSpam. run_calls. fold n.
  by rewrite deepMerge_flat by (by apply flat_single).
Qed.

Lemma setLastCmd_run now cmd timestamp this :
  let name := default "nothing" cmd in
  let ts := default now timestamp in
  let this' :=
    set_changes (setLastCmd_changes name ts ∪ (copyEntry <$> _changes this))
      (with_data (λ d, set_lastCmd ts (set_lastRan name d)) this) in
  setLastCmd now cmd timestamp this = (Ok this', this').
Proof.
  intros name ts this'. unfold setLastCmd. run_calls. fold name ts.
  by rewrite deepMerge_flat by (by apply flat_pair).
Qed.

(** X9.  [addPls] and [addSpam] validate nothing and always return, also
    for an amount of 0: the counter grows by the amount (1 when omitted),
    the other counter is untouched, and the deferred operation is the
    relative addition of the same amount. *)
Theorem counters_always_return (amount : option num) (this : UserEntry) :
  let n := default (Fin 1) amount in
  ∃ this1 this2,
    addPls amount this = (Ok this1, this1)
    ∧ pls (data this1) = num_add (pls (data this)) n
    ∧ spam (data this1) = spam (data this)
    ∧ _changes this1 !! "pls" = Some (VTerm (RAdd (RRow "pls") n))
    ∧ addSpam amount this = (Ok this2, this2)
    ∧ spam (data this2) = num_add (spam (data this)) n
    ∧ pls (data this2) = pls (data this)
    ∧ _changes this2 !! "spam" = Some (VTerm (RAdd (RRow "spam") n)).
Proof.
  intros n. eexists _, _.
  split; [apply addPls_run|]. do 2 (split; [reflexivity|]).
  split; [by apply flat_merge_lookup|].
  split; [apply addSpam_run|]. do 2 (split; [reflexivity|]).
  by apply flat_merge_lookup.
Qed.

(** X10.  [setLastCmd] always returns; it sets [lastRan] and [lastCmd]
    (to ['nothing'] and the clock when omitted) and defers both as
    literals. *)
Theorem setLastCmd_sets_both (now : num) (cmd : option string)
    (timestamp : option num) (this : UserEntry) :
  let name := default "nothing" cmd in
  let ts := default now timestamp in
  ∃ this', setLastCmd now cmd timestamp this = (Ok this', this')
           ∧ lastRan (data this') = name
           ∧ lastCmd (data this') = ts
           ∧ _changes this' !! "lastRan" = Some (VStr name)
           ∧ _changes this' !! "lastCmd" = Some (VNum ts).
Proof.
  intros name ts. eexists. split; [apply setLastCmd_run|].
  do 2 (split; [reflexivity|]).
  split; by apply flat_merge_lookup.
Qed.

(** ** All mutating methods *)

Lemma same_identity_refl this : same_identity this this.
Proof. by repeat split. Qed.

(** X11.  Whatever the call and whether it returns or throws, the receiver
    keeps its [id], [shared], [upvoted], [dblUpvoted] and its client; so
    [save] addresses the same document, with the same default, before and
    after. *)
Theorem mutations_keep_identity `{Runtime} (m : mutation) (this : UserEntry) :
  same_identity this (snd (call m this))
  ∧ get_key (save_query (snd (call m this))) = get_key (save_query this)
  ∧ default_doc (save_query (snd (call m this))) = default_doc (save_query this).
Proof.
  assert (Hid : same_identity this (snd (call m this))).
  { destruct m as [amount|amount|amount transfer|amount transfer|now ts st| |amount|amount|now cmd ts];
      simpl.
    - destruct (truthy amount) eqn:Ht;
        [|unfold addPocket; rewrite Ht; apply same_identity_refl].
      rewrite addPocket_run by done.
      destruct (Number amount); by repeat split.
    - destruct (truthy amount) eqn:Ht;
        [|unfold removePocket; rewrite Ht; apply same_identity_refl].
      rewrite removePocket_run by done.
      destruct (Number amount); by repeat split.
    - destruct (truthy amount) eqn:Ht;
        [|unfold addBank; rewrite Ht; apply same_identity_refl].
      rewrite addBank_run by done.
      destruct (Number amount); [|by repeat split].
      unfold addBank_result. cbn [snd].
      destruct (truthy (or_default transfer (VBool true))); by repeat split.
    - destruct (truthy amount) eqn:Ht;
        [|unfold removeBank; rewrite Ht; apply same_identity_refl].
      rewrite removeBank_run by done.
      destruct (Number amount); [|by repeat split].
      unfold removeBank_result. cbn [snd].
      destruct (truthy (or_default transfer (VBool true))); by repeat split.
    - rewrite updateStreak_run.
      destruct (_deepMerge _ _); by repeat split.
    - rewrite resetStreak_run.
      destruct (_deepMerge _ _); by repeat split.
    - rewrite addPls_run. by repeat split.
    - rewrite addSpam_run. by repeat split.
    - rewrite setLastCmd_run. by repeat split. }
  split; [done|].
  destruct Hid as (Hi & _ & _ & _ & Hc).
  unfold save_query. cbn [get_key default_doc]. by rewrite Hi, Hc.
Qed.

(** X12.  With a [transfer] argument that is falsy but not [undefined]
    (such as [false]), [addBank] and [removeBank] move nothing: the bank
    changes, the pocket does not, and no pocket operation is deferred (a
    pending one stays as it was). *)
Theorem bank_without_transfer `{Runtime} (amount transfer : value) (n : num)
    (this : UserEntry) :
  truthy amount = true →
  Number amount = Ok n →
  truthy transfer = false →
  transfer ≠ VUndefined →
  ∃ this1 this2,
    addBank amount transfer this = (Ok this1, this1)
    ∧ bank (data this1) = num_add (bank (data this)) n
    ∧ pocket (data this1) = pocket (data this)
    ∧ _changes this1 !! "bank" = Some (VTerm (RAdd (RRow "bank") n))
    ∧ _changes this1 !! "pocket" = copyEntry <$> _changes this !! "pocket"
    ∧ removeBank amount transfer this = (Ok this2, this2)
    ∧ bank (data this2) = Math_max (num_sub (bank (data this)) n) (Fin 0)
    ∧ pocket (data this2) = pocket (data this)
    ∧ _changes this2 !! "bank"
      = Some (VTerm (RMax (RExpr [RSub (RRow "bank") n; RDatum (Fin 0)])))
    ∧ _changes this2 !! "pocket" = copyEntry <$> _changes this !! "pocket".
Proof.
  intros Ht Hn Htr Hdef.
  assert (Hor : or_default transfer (VBool true) = transfer)
    by by destruct transfer.
  eexists _, _.
  split; [by rewrite addBank_run, Hn by done|].
  unfold addBank_result, addBank_changes. rewrite Hor, Htr.
  cbn [data with_data set_changes _changes].
  do 2 (split; [reflexivity|]).
  split; [by apply flat_merge_lookup|].
  split; [by apply flat_merge_other|].
  split; [by rewrite removeBank_run, Hn by done|].
  unfold removeBank_result, removeBank_changes. rewrite Hor, Htr.
  cbn [data with_data set_changes _changes].
  do 2 (split; [reflexivity|]).
  split; [by apply flat_merge_lookup|by apply flat_merge_other].
Qed.

Lemma bank_without_transfer_witness :
  ∃ this1,
    addBank (H := plain_runtime) (VNum (Fin 10)) (VBool false)
      (entry_with unreachable 5 0) = (Ok this1, this1)
    ∧ bank (data this1) = Fin 10
    ∧ pocket (data this1) = Fin 5.
Proof.
  destruct (bank_without_transfer (H := plain_runtime) (VNum (Fin 10))
              (VBool false) (Fin 10) (entry_with unreachable 5 0)
              eq_refl eq_refl eq_refl ltac:(discriminate))
    as (this1 & this2 & Hrun & Hb & Hp & _).
  exists this1. exact (conj Hrun (conj Hb Hp)).
Defined.

(** X13.  A truthy amount that [Number] turns into [NaN] is not rejected:
    [addPocket] returns, the local pocket and won become [NaN], the
    deferred addition carries [NaN], and the pocket stays [NaN] under any
    later [addPocket] or [removePocket]. *)
Theorem addPocket_NaN `{Runtime} (amount : value) (this : UserEntry) :
  truthy amount = true →
  Number amount = Ok NaN →
  ∃ this', addPocket amount this = (Ok this', this')
           ∧ pocket (data this') = NaN
           ∧ won (data this') = NaN
           ∧ _changes this' !! "pocket"
             = Some (VTerm (RAdd (RRow "pocket") NaN))
           ∧ (∀ next n, truthy next = true → Number next = Ok n →
                pocket (data (snd (addPocket next this'))) = NaN
                ∧ pocket (data (snd (removePocket next this'))) = NaN).
Proof.
  intros Ht Hn. eexists.
  split; [by rewrite addPocket_run, Hn by done|].
  unfold addPocket_result. cbn [data with_data set_changes _changes].
  assert (Hadd : ∀ x, num_add x NaN = NaN) by by intros [].
  split; [apply Hadd|]. split; [apply Hadd|].
  split; [by apply flat_merge_lookup|].
  intros next n Ht' Hn'.
  rewrite addPocket_run, removePocket_run, Hn' by done.
  unfold addPocket_result, removePocket_result.
  cbn [snd data with_data set_changes _changes pocket set_pocket set_won set_lost].
  by rewrite Hadd.
Qed.

Lemma addPocket_NaN_witness :
  ∃ this', addPocket (H := plain_runtime) (VStr "ten") (entry_with unreachable 5 0)
           = (Ok this', this')
           ∧ pocket (data this') = NaN.
Proof.
  destruct (addPocket_NaN (H := plain_runtime) (VStr "ten")
              (entry_with unreachable 5 0) eq_refl eq_refl)
    as (this' & Hrun & Hp & _).
  exists this'. exact (conj Hrun Hp).
Defined.

(** X14.  [addPocket(a)] followed by [addBank(b)] on integer fields, with
    [p + a], [p + a - b] and [bk + b] within 2^53 in magnitude: the local
    pocket is [max(p + a - b, 0)] and the bank [bk + b], but the pocket
    operation left in [_changes] is the clamped subtraction of [b] alone;
    the addition of [a] survives only in the [won] entry. *)
Theorem pocket_then_bank `{Runtime} (this : UserEntry) (a b p bk : Z) :
  a ≠ 0 → b ≠ 0 →
  pocket (data this) = Fin p →
  bank (data this) = Fin bk →
  safe (p + a) → safe (p + a - b) → safe (bk + b) →
  ∃ this1 this2,
    addPocket (VNum (Fin a)) this = (Ok this1, this1)
    ∧ addBank (VNum (Fin b)) VUndefined this1 = (Ok this2, this2)
    ∧ pocket (data this2) = Fin (Z.max (p + a - b) 0)
    ∧ bank (data this2) = Fin (bk + b)
    ∧ _changes this2 !! "pocket"
      = Some (VTerm (RMax (RExpr [RSub (RRow "pocket") (Fin b); RDatum (Fin 0)])))
    ∧ _changes this2 !! "bank" = Some (VTerm (RAdd (RRow "bank") (Fin b)))
    ∧ _changes this2 !! "won" = Some (VTerm (RAdd (RRow "won") (Fin a))).
Proof.
  intros Ha Hb Hp Hbk Hs1 Hs2 Hs3. eexists _, _.
  split; [by rewrite addPocket_run by by apply truthy_nonzero|].
  split; [by rewrite addBank_run by by apply truthy_nonzero|].
  unfold addBank_result, addPocket_result, addBank_changes.
  cbn [data with_data set_changes _changes or_default truthy].
  cbn [pocket bank set_pocket set_bank set_won].
  rewrite Hp, Hbk.
  rewrite (num_add_safe p a), (num_sub_safe (p + a) b), (num_add_safe bk b)
    by done.
  cbn [Math_max].
  do 2 (split; [reflexivity|]).
  split; [by apply flat_merge_lookup|].
  split; [by apply flat_merge_lookup|].
  rewrite flat_merge_other by reflexivity.
  by erewrite flat_merge_lookup by reflexivity.
Qed.

Lemma pocket_then_bank_witness :
  ∃ this2,
    fst (addBank (H := plain_runtime) (VNum (Fin 40)) VUndefined
           (snd (addPocket (H := plain_runtime) (VNum (Fin 100))
                   (entry_with unreachable 0 0)))) = Ok this2
    ∧ pocket (data this2) = Fin 60
    ∧ bank (data this2) = Fin 40
    ∧ _changes this2 !! "pocket"
      = Some (VTerm (RMax (RExpr [RSub (RRow "pocket") (Fin 40); RDatum (Fin 0)]))).
Proof.
  destruct (pocket_then_bank (H := plain_runtime) (entry_with unreachable 0 0)
              100 40 0 0 ltac:(lia) ltac:(lia) eq_refl eq_refl
              ltac:(unfold safe, two53; lia) ltac:(unfold safe, two53; lia)
              ltac:(unfold safe, two53; lia))
    as (this1 & this2 & H1 & H2 & Hp & Hb & Hc & _).
  exists this2. rewrite H1. cbn [snd]. rewrite H2.
  exact (conj eq_refl (conj Hp (conj Hb Hc))).
Defined.

(** X15.  A call that returns never drops a pending key: afterwards
    [_changes] has the keys it had and those of the deferred object. *)
Theorem pending_keys_grow `{Runtime} (m : mutation) (this this' : UserEntry) :
  fst (call m this) = Ok this' →
  dom (_changes this') = dom (_changes this) ∪ dom (deferred m).
Proof.
  intros Hcall. apply call_deferred in Hcall as [_ Hmerge].
  apply set_eq. intros key.
  rewrite elem_of_union, !elem_of_dom. by apply deepMerge_is_Some.
Qed.

Lemma pending_keys_grow_witness :
  dom (_changes (snd (call (H := plain_runtime) (AddPls None)
                        (entry_with unreachable 5 0))))
  = dom (_changes (entry_with unreachable 5 0))
    ∪ dom (deferred (H := plain_runtime) (AddPls None)).
Proof.
  apply (pending_keys_grow (H := plain_runtime) (AddPls None)).
  vm_compute. reflexivity.
Defined.

(** ** save *)

(** X16.  When the database resolves the query with an empty change list,
    [c.changes[0]] is [undefined] and the promise of [save] rejects with a
    TypeError; the receiver is unchanged. *)
Theorem save_empty_changes (this : UserEntry) (c : response) :
  run (_client this) (save_query this) = Ok c →
  changes c = [] →
  save this = (Thrown TypeError, this).
Proof.
  intros Hrun Hc. unfold save. run_calls. by rewrite Hrun, Hc.
Qed.

Lemma save_empty_changes_witness :
  save (entry_with {| getDefaultUser := blank_user;
                      run := λ _, Ok (mkResponse []) |} 5 0)
  = (Thrown TypeError,
     entry_with {| getDefaultUser := blank_user;
                   run := λ _, Ok (mkResponse []) |} 5 0).
Proof.
  apply (save_empty_changes _ (mkResponse [])); reflexivity.
Defined.

(** ** Order of the merges *)

Lemma entryValue_not_null tv sv v :
  sv ≠ VNull → entryValue deepMergeInto tv sv = Ok v → v ≠ VNull.
Proof.
  intros Hn Hv.
  apply entryValue_Ok_inv in Hv as [->|(t & s & r & _ & _ & _ & ->)]; done.
Qed.

Lemma entryValue_copy tv sv :
  sv ≠ VNull →
  entryValue deepMergeInto (copyEntry tv) sv = entryValue deepMergeInto tv sv.
Proof.
  intros Hn. destruct tv as [| |b|n|s|r|t]; try reflexivity.
  change (copyEntry VNull) with (VObj ∅).
  rewrite (entryValue_replace _ VNull) by done.
  destruct sv as [| |b|n|s|r|s]; try reflexivity; [done|].
  rewrite entryValue_recurse. by rewrite deepMerge_into_empty.
Qed.

Lemma entryValue_after_merge (t s d : gmap string value) key sv :
  _deepMerge t s = Ok d →
  s !! key = None →
  sv ≠ VNull →
  entryValue deepMergeInto (get d key) sv = entryValue deepMergeInto (get t key) sv.
Proof.
  intros Hd Hs Hn.
  pose proof (deepMerge_lookup _ _ _ key Hd) as Hk. rewrite Hs in Hk.
  unfold get. rewrite Hk. destruct (t !! key) as [tv|]; [|done].
  simpl. by apply entryValue_copy.
Qed.

(** X18.  Merges of plain sources that share no key, into a plain target,
    commute: with no [null] among the values of either source, merging
    [s1] then [s2] and merging [s2] then [s1] return the same mapping. *)
Theorem deepMerge_disjoint_commute (t s1 s2 d1 d12 : gmap string value) :
  plain (VObj t) = true →
  plain (VObj s1) = true →
  plain (VObj s2) = true →
  s1 ##ₘ s2 →
  no_null_entry s1 →
  no_null_entry s2 →
  _deepMerge t s1 = Ok d1 →
  _deepMerge d1 s2 = Ok d12 →
  ∃ d2, _deepMerge t s2 = Ok d2 ∧ _deepMerge d2 s1 = Ok d12.
Proof.
  intros _ _ _ Hdisj Hn1 Hn2 Hd1 Hd12.
  assert (Hs1 : ∀ key sv, s2 !! key = Some sv → s1 !! key = None).
  { intros key sv Hs. specialize (Hdisj key). rewrite Hs in Hdisj.
    by destruct (s1 !! key). }
  assert (Hs2 : ∀ key sv, s1 !! key = Some sv → s2 !! key = None).
  { intros key sv Hs. specialize (Hdisj key). rewrite Hs in Hdisj.
    by destruct (s2 !! key). }
  assert (Hnn1 : ∀ key sv, s1 !! key = Some sv → sv ≠ VNull).
  { intros key sv Hs ->. by apply (Hn1 key). }
  assert (Hnn2 : ∀ key sv, s2 !! key = Some sv → sv ≠ VNull).
  { intros key sv Hs ->. by apply (Hn2 key). }
  destruct (_deepMerge t s2) as [d2|e] eqn:Hd2.
  2:{ apply deepMerge_thrown in Hd2 as (key & sv & Hs & He).
      pose proof (deepMerge_lookup _ _ _ key Hd12) as Hk. rewrite Hs in Hk.
      destruct Hk as (v & Hv & _).
      rewrite (entryValue_after_merge t s1 d1) in Hv by eauto. congruence. }
  exists d2. split; [done|].
  destruct (_deepMerge d2 s1) as [d'|e] eqn:Hd'.
  2:{ apply deepMerge_thrown in Hd' as (key & sv & Hs & He).
      pose proof (deepMerge_lookup _ _ _ key Hd1) as Hk. rewrite Hs in Hk.
      destruct Hk as (v & Hv & _).
      rewrite (entryValue_after_merge t s2 d2) in He by eauto. congruence. }
  f_equal. apply map_eq. intros key.
  pose proof (deepMerge_lookup _ _ _ key Hd1) as K1.
  pose proof (deepMerge_lookup _ _ _ key Hd2) as K2.
  pose proof (deepMerge_lookup _ _ _ key Hd12) as K12.
  pose proof (deepMerge_lookup _ _ _ key Hd') as K'.
  destruct (s1 !! key) as [sv1|] eqn:E1; destruct (s2 !! key) as [sv2|] eqn:E2.
  - by rewrite (Hs1 _ _ E2) in E1.
  - destruct K1 as (v1 & Hv1 & Hl1). destruct K' as (v' & Hv' & ->).
    rewrite (entryValue_after_merge t s2 d2) in Hv' by eauto.
    rewrite K12, Hl1. simpl.
    rewrite copyEntry_not_null by (eapply entryValue_not_null; eauto).
    congruence.
  - destruct K2 as (v2 & Hv2 & Hl2). destruct K12 as (v12 & Hv12 & ->).
    rewrite (entryValue_after_merge t s1 d1) in Hv12 by eauto.
    rewrite K', Hl2. simpl.
    rewrite copyEntry_not_null by (eapply entryValue_not_null; eauto).
    congruence.
  - rewrite K', K2, K12, K1. destruct (t !! key); [|done].
    reflexivity.
Qed.

Lemma deepMerge_disjoint_commute_witness :
  ∃ d2, _deepMerge {[ "pls" := row_add "pls" (Fin 1) ]}
                   (setLastCmd_changes "ping" (Fin 3)) = Ok d2
        ∧ _deepMerge d2 (addSpam_changes (Fin 1))
          = Ok ({[ "pls" := row_add "pls" (Fin 1) ]}
                  ∪ addSpam_changes (Fin 1)
                  ∪ setLastCmd_changes "ping" (Fin 3)).
Proof.
  apply (deepMerge_disjoint_commute
           {[ "pls" := row_add "pls" (Fin 1) ]}
           (addSpam_changes (Fin 1)) (setLastCmd_changes "ping" (Fin 3))
           ({[ "pls" := row_add "pls" (Fin 1) ]} ∪ addSpam_changes (Fin 1))).
  - reflexivity.
  - reflexivity.
  - reflexivity.
  - apply map_disjoint_spec. unfold addSpam_changes. intros key x y Hx Hy.
    apply lookup_singleton_Some in Hx as [<- _]. discriminate Hy.
  - unfold addSpam_changes. intros key Hk.
    apply lookup_singleton_Some in Hk as [_ Hk]. discriminate Hk.
  - unfold setLastCmd_changes. intros key Hk.
    apply lookup_insert_Some in Hk as [[_ Hk]|[_ Hk]]; [discriminate Hk|].
    apply lookup_singleton_Some in Hk as [_ Hk]. discriminate Hk.
  - vm_compute. reflexivity.
  - vm_compute. reflexivity.
Defined.

(** ** Chained calls on the same fields *)



(** ** toPlainObject *)

(** X17.  [toPlainObject] returns the user document, every field with its
    current local value and nothing else; it does not depend on the client
    or on the pending changes. *)
Theorem toPlainObject_is_document (this : UserEntry) :
  toPlainObject this = MValue <$> document (data this).
Proof.
  destruct this as [[i p lc lr s po b w l sh st u du] c ch].
  apply map_eq. intros key.
  vm_compute.
  reflexivity.
Qed.
